(** * document-ai-search: extraction layer and search orchestrator

    A shallow embedding of [scripts/file_reader.py] and
    [scripts/search_documents.py], and the properties of the lexical path
    scoring, of the truncation and error funnel of the extractor, and of the
    merge / filter / sort stage of the orchestrator; then of the format
    readers one by one, of discovery, of the batches, of the counters of a
    run and of the report.

    Conventions of the embedding.
    - A Python [str] is a list of Unicode code points ([N]).
    - A Python [int] is a [Z]; the one float expression of the program
      ([path_relevance * 0.3]) is computed in exact rationals ([Q]).
    - A raised exception is a value of [exn]; code that may raise returns a
      [result].  Calls into third-party libraries and into the file system
      are fields of a [World] record: their outcome is an input of the model.
    - Paths are pure POSIX paths; an exception a library raises derives
      from [Exception]; the relevance an analysis carries is an integer.
    - Printing and logging have no effect on any value and are left out. *)

From Stdlib Require Import List ZArith NArith QArith Qminmax Bool Lia.
From Stdlib Require Import String Ascii DecimalString.
From Stdlib Require Import Permutation Sorting.Sorted.
Import ListNotations.

Set Implicit Arguments.
Local Open Scope Z_scope.
Local Open Scope list_scope.

(* ================================================================== *)
(** * Python built-ins used by the two scripts *)
(* ================================================================== *)

Module Py.

(** ** Strings *)

Definition char := N.
Definition str := list char.

(** A literal of the source, given by its ASCII text. *)
Definition lit (x : string) : str :=
  List.map N_of_ascii (list_ascii_of_string x).

Fixpoint str_eqb (a b : str) : bool :=
  match a, b with
  | [], [] => true
  | x :: a', y :: b' => N.eqb x y && str_eqb a' b'
  | _, _ => false
  end.

(** [len(s)] *)
Definition len {A} (l : list A) : Z := Z.of_nat (List.length l).

(** Truth value of a string or list: non-empty. *)
Definition truthy {A} (l : list A) : bool :=
  match l with [] => false | _ => true end.

(** [str.isspace] on one code point (CPython's [Py_UNICODE_ISSPACE]); the
    same predicate decides [\s] in a [re] pattern over [str]. *)
Definition isspace (c : char) : bool :=
  (((9 <=? c) && (c <=? 13)) || ((28 <=? c) && (c <=? 32))
   || (c =? 133) || (c =? 160) || (c =? 5760)
   || ((8192 <=? c) && (c <=? 8202))
   || (c =? 8232) || (c =? 8233) || (c =? 8239) || (c =? 8287)
   || (c =? 12288))%N.

Fixpoint lstrip (s : str) : str :=
  match s with
  | [] => []
  | c :: s' => if isspace c then lstrip s' else s
  end.

Definition rstrip (s : str) : str := rev (lstrip (rev s)).

(** [s.strip()] *)
Definition strip (s : str) : str := rstrip (lstrip s).

(** The case mapping behind [str.lower], one code point at a time (the
    handful of context-dependent or multi-character special cases of
    Unicode are outside the model).  Everything below holds for any
    mapping; [ascii_case] is the one used to run examples. *)
Class CaseMap := { lower_char : char -> char }.

Definition lower `{CaseMap} (s : str) : str := List.map lower_char s.

Definition ascii_lower_char (c : char) : char :=
  if ((65 <=? c) && (c <=? 90))%N then (c + 32)%N else c.

Definition ascii_case : CaseMap := {| lower_char := ascii_lower_char |}.

(** [s.startswith(t)] *)
Fixpoint startswith (s t : str) : bool :=
  match t, s with
  | [], _ => true
  | _ :: _, [] => false
  | a :: t', b :: s' => N.eqb a b && startswith s' t'
  end.

(** [s.endswith(t)] *)
Definition endswith (s t : str) : bool := startswith (rev s) (rev t).

(** [t in s] for strings: [t] occurs as a contiguous slice of [s]. *)
Fixpoint str_in (t s : str) : bool :=
  startswith s t
  || match s with
     | [] => false
     | _ :: s' => str_in t s'
     end.

(** [sep.join(l)] *)
Fixpoint join (sep : str) (l : list str) : str :=
  match l with
  | [] => []
  | [x] => x
  | x :: rest => x ++ sep ++ join sep rest
  end.

(** [s.rfind(c)] for a one-character needle: index of its last occurrence. *)
Fixpoint rfind (c : char) (s : str) : option nat :=
  match s with
  | [] => None
  | x :: s' =>
      match rfind c s' with
      | Some i => Some (S i)
      | None => if N.eqb x c then Some O else None
      end
  end.

(** [re.split(cls, s)] for a pattern that is a single character class:
    every separator character ends a piece; empty pieces are kept. *)
Fixpoint re_split (sep : char -> bool) (s : str) : list str :=
  match s with
  | [] => [[]]
  | c :: s' =>
      if sep c then [] :: re_split sep s'
      else match re_split sep s' with
           | [] => [[c]]
           | w :: ws => (c :: w) :: ws
           end
  end.

(** [str(n)] for an [int]. *)
Definition str_of_int (z : Z) : str := lit (NilZero.string_of_int (Z.to_int z)).

(** [l[:k]], with Python's reading of a negative bound. *)
Definition slice_to {A} (l : list A) (k : Z) : list A :=
  if 0 <=? k then firstn (Z.to_nat k) l
  else firstn (Z.to_nat (len l + k)) l.

(** [l[i:j]] for [0 <= i]. *)
Definition slice {A} (l : list A) (i j : Z) : list A :=
  skipn (Z.to_nat i) (slice_to l j).

(** [int(x)] for a float: truncation toward zero. *)
Definition int_of_float (x : Q) : Z := Z.quot (Qnum x) (Zpos (Qden x)).

(** ** Exceptions *)

(** An exception raised by the interpreter or by a library: the name of its
    class, the names of the classes it derives from, and [str(e)].  All of
    them derive from [Exception]. *)
Record pyexc := mkExc {
  exc_class : str;
  exc_bases : list str;
  exc_str : str
}.

(** [isinstance(e, cls)] *)
Definition isinstance (e : pyexc) (cls : str) : bool :=
  str_eqb (exc_class e) cls || existsb (str_eqb cls) (exc_bases e).

(** What a library call does: it returns, or it raises. *)
Inductive lib (A : Type) : Type :=
| Ok (a : A)
| Err (e : pyexc).
Arguments Ok {A} a.
Arguments Err {A} e.

(** Exceptions seen by the program: its own [ReadError], or any other. *)
Inductive exn : Type :=
| ReadError (msg : str)
| Exception (e : pyexc).

Inductive result (A : Type) : Type :=
| Ret (a : A)
| Raise (e : exn).
Arguments Ret {A} a.
Arguments Raise {A} e.

Definition bind {A B} (m : result A) (k : A -> result B) : result B :=
  match m with
  | Ret a => k a
  | Raise e => Raise e
  end.

Definition call {A} (c : lib A) : result A :=
  match c with
  | Ok a => Ret a
  | Err e => Raise (Exception e)
  end.

End Py.
Export Py.

Declare Scope py_scope.
Delimit Scope py_scope with py.
Notation "x <- m ;; k" := (bind m (fun x => k))
  (at level 61, m at next level, right associativity) : py_scope.
Notation "m ;;; k" := (bind m (fun _ => k))
  (at level 61, right associativity) : py_scope.
Local Open Scope py_scope.

(* ================================================================== *)
(** * pathlib: pure POSIX paths *)
(* ================================================================== *)

Module PathLib.

(** A path is its root flag ([/] or none) and its components. *)
Record Path := mkPath {
  anchor : bool;
  parts : list str
}.

Definition sep : str := lit "/".

(** [str(p)] *)
Definition path_str (p : Path) : str :=
  if anchor p then sep ++ join sep (parts p)
  else match parts p with
       | [] => lit "."
       | _ => join sep (parts p)
       end.

(** [p.name]: the final component, empty for [.] and [/]. *)
Definition name (p : Path) : str := last (parts p) [].

(** [p.parent] *)
Definition parent (p : Path) : Path := mkPath (anchor p) (removelast (parts p)).

(** [p.parents]: the ancestors, nearest first, down to [.] or [/]. *)
Definition parents (p : Path) : list Path :=
  List.map (fun k => mkPath (anchor p) (firstn k (parts p)))
           (rev (seq 0 (List.length (parts p)))).

(** [p.suffix] *)
Definition suffix (p : Path) : str :=
  let nm := name p in
  match rfind 46%N nm with
  | Some i =>
      if (0 <? Z.of_nat i) && (Z.of_nat i <? len nm - 1)
      then skipn i nm else []
  | None => []
  end.

(** [p.with_suffix(ext)] for a path with a name. *)
Definition with_suffix (p : Path) (ext : str) : Path :=
  let nm := name p in
  let stem := firstn (List.length nm - List.length (suffix p)) nm in
  mkPath (anchor p) (removelast (parts p) ++ [stem ++ ext]).

(** [folder / rel] for a relative tail. *)
Definition joinpath (folder : Path) (rel : list str) : Path :=
  mkPath (anchor folder) (parts folder ++ rel).

Fixpoint strip_prefix (pre l : list str) : option (list str) :=
  match pre, l with
  | [], _ => Some l
  | _ :: _, [] => None
  | a :: pre', b :: l' => if str_eqb a b then strip_prefix pre' l' else None
  end.

Definition ValueError (msg : str) : exn :=
  Exception (mkExc (lit "ValueError") [lit "Exception"] msg).

(** [p.relative_to(other)] *)
Definition relative_to (p other : Path) : result Path :=
  if Bool.eqb (anchor p) (anchor other) then
    match strip_prefix (parts other) (parts p) with
    | Some rest => Ret (mkPath false rest)
    | None => Raise (ValueError (lit "path is not in the subpath of the other"))
    end
  else Raise (ValueError (lit "path is not in the subpath of the other")).

(** [Path(s)] for a string. *)
Definition Path_of_str (s : str) : Path :=
  mkPath (startswith s sep)
         (filter (fun c => negb (str_eqb c []) && negb (str_eqb c (lit ".")))
                 (re_split (N.eqb 47%N) s)).

(** Order of paths ([p <= q]): by root flag, then component by component,
    each component by code points. *)
Fixpoint str_leb (a b : str) : bool :=
  match a, b with
  | [], _ => true
  | _ :: _, [] => false
  | x :: a', y :: b' => (x <? y)%N || ((x =? y)%N && str_leb a' b')
  end.

Fixpoint parts_leb (a b : list str) : bool :=
  match a, b with
  | [], _ => true
  | _ :: _, [] => false
  | x :: a', y :: b' =>
      if str_eqb x y then parts_leb a' b' else str_leb x y
  end.

Definition path_leb (p q : Path) : bool :=
  if Bool.eqb (anchor p) (anchor q) then parts_leb (parts p) (parts q)
  else negb (anchor p).

End PathLib.
Export PathLib.

(* ================================================================== *)
(** * file_reader.py *)
(* ================================================================== *)

Module FileReader.

(** ** The outside world of the extractor *)

(** A page and a reader object of [pypdf]. *)
Record PdfPage := mkPdfPage {
  extract_text : lib str
}.

Record PdfReader := mkPdfReader {
  is_encrypted : bool;
  decrypt : str -> lib unit;
  pages : lib (list PdfPage)
}.

(** The main document of a DOCX file once parsed: the [text] of its [w:t]
    elements in document order ([None] for an element without text). *)
Record XmlTree := mkXmlTree {
  wt_texts : list (option str)
}.

(** A sheet of [openpyxl]: its title and its rows; a cell is [None] or the
    [str] of its value. *)
Record XlsxSheet := mkXlsxSheet {
  xlsx_title : str;
  xlsx_rows : list (list (option str))
}.

Record XlsxWorkbook := mkXlsxWorkbook {
  xlsx_sheets : list XlsxSheet;
  xlsx_close : lib unit
}.

(** What [sheet.cell_value(row, col)] gives in [xlrd]: it raises; or the
    value is a float, with [is_integer()], [str(int(v))] and [str(v)]; or
    it is something else, with its [str] (the empty string for an empty
    cell). *)
Inductive XlsCell : Type :=
| XlsFault (e : pyexc)
| XlsFloat (is_integer : bool) (as_int as_float : str)
| XlsValue (s : str).

Record XlsSheet := mkXlsSheet {
  xls_name : str;
  xls_cells : list (list XlsCell);
  xls_unload : lib unit
}.

(** [workbook.sheet_by_index(i)] for [i] in [range(workbook.nsheets)]. *)
Record XlsWorkbook := mkXlsWorkbook {
  xls_sheets : list (lib XlsSheet)
}.

(** Everything the two scripts obtain from the file system, from the
    third-party libraries, from other programs and from the clock.  The
    outcome of each such call is an input of the model, and it is the same
    whenever the call is repeated within a run. *)
Record World := mkWorld {
  platform_win32 : bool;
  (* pathlib *)
  path_exists : Path -> bool;
  path_is_dir : Path -> bool;
  read_text : Path -> str -> lib str;
  read_text_ignoring_errors : Path -> str -> lib str;
  unlink : Path -> lib unit;
  write_text : Path -> str -> lib unit;
  rglob_entries : Path -> list (list str);
  (* subprocess.run: return code and standard output *)
  run : list str -> lib (Z * str);
  (* pypdf *)
  import_pypdf : lib unit;
  open_pdf : str -> lib PdfReader;
  (* zipfile, defusedxml, xml.etree *)
  zip_open : Path -> lib N;
  zip_read : N -> str -> lib str;
  import_defusedxml : lib unit;
  safe_fromstring : str -> lib XmlTree;
  fromstring : str -> lib XmlTree;
  (* openpyxl, xlrd *)
  import_openpyxl : lib unit;
  load_workbook : str -> lib XlsxWorkbook;
  import_xlrd : lib unit;
  open_workbook : str -> lib XlsWorkbook;
  (* win32com: open the document in Word and take its text *)
  word_automation : Path -> lib str;
  (* PIL, pytesseract *)
  import_ocr : lib unit;
  image_open : Path -> lib N;
  image_to_string : N -> str -> str -> lib str;
  (* datetime.now(timezone.utc), formatted *)
  now_utc : str
}.

(** ** class DocumentReader *)

Definition MAX_CHARS : Z := 100000.

(** ["\n\n[Content truncated...]"] *)
Definition truncation_marker : str :=
  [10%N; 10%N] ++ lit "[Content truncated...]".

(** The pattern
    [try: body  except ReadError: raise  except Exception as e: raise ReadError(msg(e))]. *)
Definition reraise_as_ReadError {A} (body : result A) (msg : pyexc -> str)
  : result A :=
  match body with
  | Ret a => Ret a
  | Raise (ReadError m) => Raise (ReadError m)
  | Raise (Exception e) => Raise (ReadError (msg e))
  end.

(** [try: import lib  except ImportError: raise ReadError(msg)], then [k]. *)
Definition with_import {A} (imported : lib unit) (msg : str) (k : result A)
  : result A :=
  match imported with
  | Ok _ => k
  | Err e =>
      if isinstance e (lit "ImportError") then Raise (ReadError msg)
      else Raise (Exception e)
  end.

(** The [for encoding in encodings] loop of [_read_txt]. *)
Fixpoint read_txt_loop (w : World) (file : Path) (encodings : list str)
  : result str :=
  match encodings with
  | [] => Raise (ReadError (lit "Could not decode file with any encoding"))
  | encoding :: rest =>
      match read_text w file encoding with
      | Ok text => Ret text
      | Err e =>
          if isinstance e (lit "UnicodeDecodeError")
             || isinstance e (lit "LookupError")
          then read_txt_loop w file rest
          else Raise (Exception e)
      end
  end.

Definition _read_txt (w : World) (file : Path) : result str :=
  read_txt_loop w file [lit "utf-8"; lit "gbk"; lit "gb2312"; lit "latin-1"].

(** The [for page_num, page in enumerate(reader.pages, 1)] loop. *)
Fixpoint pdf_pages_loop (ps : list PdfPage) (page_num : Z)
  (text_parts : list str) : list str :=
  match ps with
  | [] => text_parts
  | page :: rest =>
      let text_parts' :=
        match extract_text page with
        | Ok page_text =>
            if truthy page_text && truthy (strip page_text)
            then text_parts ++ [page_text]
            else text_parts
        | Err e =>
            text_parts ++ [lit "[Page " ++ str_of_int page_num
                           ++ lit " error: " ++ exc_str e ++ lit "]"]
        end in
      pdf_pages_loop rest (page_num + 1) text_parts'
  end.

Definition encrypted_pdf_message : str :=
  lit "Encrypted PDF (password protected)".

Definition _read_pdf (w : World) (file : Path) : result str :=
  with_import (import_pypdf w) (lit "pypdf not installed. Run: pip install pypdf")
    (reraise_as_ReadError
       (reader <- call (open_pdf w (path_str file)) ;;
        (if is_encrypted reader then
           match decrypt reader [] with
           | Ok _ => Ret tt
           | Err _ => Raise (ReadError encrypted_pdf_message)
           end
         else Ret tt) ;;;
        ps <- call (pages reader) ;;
        let text_parts := pdf_pages_loop ps 1 [] in
        let text := join [10%N; 10%N] text_parts in
        if negb (truthy (strip text))
        then Raise (ReadError (lit "No text content found (may be image-only PDF)"))
        else Ret text)
       (fun e => lit "PDF read failed: " ++ exc_str e)).

(** [tree = SafeET.fromstring(xml)], or [ET.fromstring(xml)] when
    [defusedxml] is not installed. *)
Definition parse_document (w : World) (xml_content : str) : result XmlTree :=
  match
    match import_defusedxml w with
    | Ok _ => safe_fromstring w xml_content
    | Err e => Err e
    end
  with
  | Ok tree => Ret tree
  | Err e =>
      if isinstance e (lit "ImportError") then call (fromstring w xml_content)
      else Raise (Exception e)
  end.

Definition _read_docx (w : World) (file : Path) : result str :=
  reraise_as_ReadError
    (docx <- call (zip_open w file) ;;
     xml_content <-
       match zip_read w docx (lit "word/document.xml") with
       | Ok content => Ret content
       | Err e =>
           if isinstance e (lit "KeyError")
           then Raise (ReadError
                  (lit "Invalid DOCX structure (missing word/document.xml)"))
           else Raise (Exception e)
       end ;;
     tree <- parse_document w xml_content ;;
     let result :=
       flat_map (fun t => match t with
                          | Some text => if truthy text then [text] else []
                          | None => []
                          end)
                (wt_texts tree) in
     let text := List.concat result in
     if negb (truthy (strip text))
     then Raise (ReadError (lit "No text content found"))
     else Ret text)
    (fun e => lit "DOCX read failed: " ++ exc_str e).

(** The text of one row of an XLSX sheet, if any. *)
Definition xlsx_row_text (row : list (option str)) : list str :=
  let non_empty_cells :=
    flat_map (fun cell => match cell with
                          | Some s => [s]
                          | None => []
                          end) row in
  if truthy non_empty_cells then
    let row_text := join (lit " | ") non_empty_cells in
    if truthy (strip row_text) then [row_text] else []
  else [].

Definition xlsx_sheet_text (sheet : XlsxSheet) : list str :=
  let rows_text := flat_map xlsx_row_text (xlsx_rows sheet) in
  if truthy rows_text
  then [lit "Sheet: " ++ xlsx_title sheet ++ [10%N] ++ join [10%N] rows_text]
  else [].

Definition _read_xlsx (w : World) (file : Path) : result str :=
  with_import (import_openpyxl w)
    (lit "openpyxl not installed. Run: pip install openpyxl")
    (reraise_as_ReadError
       (wb <- call (load_workbook w (path_str file)) ;;
        let sheets_text := flat_map xlsx_sheet_text (xlsx_sheets wb) in
        call (xlsx_close wb) ;;;
        if negb (truthy sheets_text)
        then Raise (ReadError (lit "No data found in workbook"))
        else Ret (join [10%N; 10%N] sheets_text))
       (fun e => lit "XLSX read failed: " ++ exc_str e)).

(** What one cell adds to [row_values]. *)
Definition xls_cell_values (cell : XlsCell) : list str :=
  match cell with
  | XlsFault _ => []
  | XlsFloat is_integer as_int as_float =>
      let cell_value := if is_integer then as_int else as_float in
      if truthy cell_value then [cell_value] else []
  | XlsValue s =>
      if truthy s then
        let cell_value := strip s in
        if truthy cell_value then [cell_value] else []
      else []
  end.

Definition xls_row_text (row : list XlsCell) : list str :=
  let row_values := flat_map xls_cell_values row in
  if truthy row_values then [join (lit " | ") row_values] else [].

(** The [for sheet_idx in range(workbook.nsheets)] loop. *)
Fixpoint xls_sheets_loop (sheets : list (lib XlsSheet)) (sheets_text : list str)
  : result (list str) :=
  match sheets with
  | [] => Ret sheets_text
  | by_index :: rest =>
      sheet <- call by_index ;;
      let rows_text := flat_map xls_row_text (xls_cells sheet) in
      let sheets_text :=
        if truthy rows_text
        then sheets_text
             ++ [lit "Sheet: " ++ xls_name sheet ++ [10%N]
                 ++ join [10%N] rows_text]
        else sheets_text in
      call (xls_unload sheet) ;;;
      xls_sheets_loop rest sheets_text
  end.

Definition _read_xls (w : World) (file : Path) : result str :=
  with_import (import_xlrd w) (lit "xlrd not installed. Run: pip install xlrd")
    (reraise_as_ReadError
       (workbook <- call (open_workbook w (path_str file)) ;;
        sheets_text <- xls_sheets_loop (xls_sheets workbook) [] ;;
        if negb (truthy sheets_text)
        then Raise (ReadError (lit "No data found in workbook"))
        else Ret (join [10%N; 10%N] sheets_text))
       (fun e => lit "XLS read failed: " ++ exc_str e)).

(** [except (FileNotFoundError, subprocess.TimeoutExpired): continue] *)
Definition tool_unavailable (e : pyexc) : bool :=
  isinstance e (lit "FileNotFoundError") || isinstance e (lit "TimeoutExpired").

(** Method 2 of [_read_doc], followed by [next] when no tool gave a text. *)
Fixpoint doc_tools_loop (w : World) (file : Path) (tools : list str)
  (next : result str) : result str :=
  match tools with
  | [] => next
  | tool :: rest =>
      match run w [tool; path_str file] with
      | Ok (returncode, stdout) =>
          if (returncode =? 0) && truthy (strip stdout) then Ret stdout
          else doc_tools_loop w file rest next
      | Err e =>
          if tool_unavailable e then doc_tools_loop w file rest next
          else Raise (Exception e)
      end
  end.

(** The body of one round of Method 3: the text of the converted file, or
    nothing. *)
Definition libreoffice_convert (w : World) (file : Path) (libreoffice_cmd : str)
  : result (option str) :=
  r <- call (run w [libreoffice_cmd; lit "--headless"; lit "--convert-to";
                    lit "txt:Text"; lit "--outdir"; path_str (parent file);
                    path_str file]) ;;
  if fst r =? 0 then
    let temp_txt := with_suffix file (lit ".txt") in
    if path_exists w temp_txt then
      text <- call (read_text_ignoring_errors w temp_txt (lit "utf-8")) ;;
      call (unlink w temp_txt) ;;;
      Ret (Some text)
    else Ret None
  else Ret None.

Definition doc_unreadable_message : str :=
  lit "Could not read .doc file. Options:" ++ [10%N]
  ++ lit "1. Install pywin32 (Windows with Word): pip install pywin32" ++ [10%N]
  ++ lit "2. Install LibreOffice: https://www.libreoffice.org/" ++ [10%N]
  ++ lit "3. Convert .doc to .docx for better compatibility".

Fixpoint doc_libreoffice_loop (w : World) (file : Path) (cmds : list str)
  : result str :=
  match cmds with
  | [] => Raise (ReadError doc_unreadable_message)
  | libreoffice_cmd :: rest =>
      match libreoffice_convert w file libreoffice_cmd with
      | Ret (Some text) => Ret text
      | Ret None => doc_libreoffice_loop w file rest
      | Raise (Exception e) =>
          if tool_unavailable e then doc_libreoffice_loop w file rest
          else Raise (Exception e)
      | Raise e => Raise e
      end
  end.

(** No handler around the whole: an exception the fallback chain does not
    catch leaves [_read_doc] as it is. *)
Definition _read_doc (w : World) (file : Path) : result str :=
  let after_word :=
    let method3 := doc_libreoffice_loop w file [lit "libreoffice"; lit "soffice"] in
    if negb (platform_win32 w)
    then doc_tools_loop w file [lit "antiword"; lit "catdoc"] method3
    else method3 in
  if platform_win32 w then
    match word_automation w file with
    | Ok text => Ret text
    | Err _ => after_word
    end
  else after_word.

(** The Tesseract binary chosen on Windows: the first candidate that exists,
    else the library default. *)
Definition tess_paths : list str :=
  [lit "C:\Program Files\Tesseract-OCR\tesseract.exe";
   lit "C:\Program Files (x86)\Tesseract-OCR\tesseract.exe";
   lit "C:\Tesseract-OCR\tesseract.exe"].

Definition tesseract_cmd (w : World) : str :=
  if platform_win32 w then
    match find (fun path => path_exists w (mkPath false [path])) tess_paths with
    | Some path => path
    | None => lit "tesseract"
    end
  else lit "tesseract".

(** The inline marker returned when OCR fails: [f"[OCR failed: {e}]"]. *)
Definition ocr_failed_marker (e : pyexc) : str :=
  lit "[OCR failed: " ++ exc_str e ++ lit "]".

(** [pytesseract.image_to_string(image, lang=lang)] under the configured
    binary. *)
Definition ocr (w : World) (image : N) (lang : str) : lib str :=
  image_to_string w image (tesseract_cmd w) lang.

Definition _read_image (w : World) (file : Path) : result str :=
  with_import (import_ocr w)
    (lit "OCR dependencies not installed. Run: pip install pytesseract Pillow")
    (match
        (image <- call (image_open w file) ;;
         text <- match ocr w image (lit "chi_sim+eng") with
                 | Ok text => Ret text
                 | Err e =>
                     if isinstance e (lit "TesseractError")
                     then call (ocr w image (lit "eng"))
                     else Raise (Exception e)
                 end ;;
         if negb (truthy text) || negb (truthy (strip text))
         then Raise (ReadError (lit "No text could be extracted from image"))
         else Ret text)
      with
      | Ret text => Ret text
      | Raise (ReadError m) => Raise (ReadError m)
      | Raise (Exception e) => Ret (ocr_failed_marker e)
      end).

(** The dispatch table of [read]. *)
Definition readers : list (str * (World -> Path -> result str)) :=
  [ (lit ".txt", _read_txt);
    (lit ".pdf", _read_pdf);
    (lit ".docx", _read_docx);
    (lit ".doc", _read_doc);
    (lit ".xlsx", _read_xlsx);
    (lit ".xls", _read_xls);
    (lit ".jpg", _read_image);
    (lit ".jpeg", _read_image);
    (lit ".png", _read_image);
    (lit ".md", _read_txt) ].

(** [d.get(key)] on a dict given by its items. *)
Fixpoint dict_get {V} (d : list (str * V)) (key : str) : option V :=
  match d with
  | [] => None
  | (k, v) :: d' => if str_eqb k key then Some v else dict_get d' key
  end.

(** [if len(text) > MAX_CHARS: text = text[:MAX_CHARS] + marker]. *)
Definition truncate (text : str) : str :=
  if len text >? MAX_CHARS
  then slice_to text MAX_CHARS ++ truncation_marker
  else text.

(** How a script ends: [sys.exit(code)], the end of [main] (status 0), or
    an exception nobody caught (a traceback). *)
Inductive termination : Type :=
| SysExit (code : Z)
| Returned
| Uncaught (e : exn).


Section Read.
Context `{CaseMap}.

Definition read (w : World) (file : Path) : result str :=
  let ext := lower (suffix file) in
  match dict_get readers ext with
  | None => Raise (ReadError (lit "Unsupported format: " ++ ext))
  | Some reader =>
      reraise_as_ReadError
        (text <- reader w file ;; Ret (truncate text))
        (fun e => name file ++ lit ": " ++ exc_class e ++ lit ": " ++ exc_str e)
  end.

(** [main] of file_reader.py, on [sys.argv]. *)
Definition main (w : World) (argv : list str) : termination :=
  if len argv <? 2 then SysExit 1
  else
    let file_path := Path_of_str (nth 1 argv []) in
    if negb (path_exists w file_path) then SysExit 1
    else match read w file_path with
         | Ret content => Returned
         | Raise (ReadError _) => SysExit 1
         | Raise e => Uncaught e
         end.

End Read.

End FileReader.
Export FileReader.

(* ================================================================== *)
(** * search_documents.py *)
(* ================================================================== *)

Module SearchDocuments.

(** ** Data of the orchestrator *)

(** The constructor arguments kept on [self] ([verbose] only gates
    printing). *)
Record DocumentSearcher := mkSearcher {
  folder : Path;
  query : str;
  batch_size : Z;
  max_docs : Z
}.

(** One item of [stats['errors']]. *)
Record ErrorEntry := mkError {
  err_file : str;
  err_error : str
}.

(** [self.stats] *)
Record Stats := mkStats {
  total_found : Z;
  successfully_read : Z;
  skipped : Z;
  matched : Z;
  errors : list ErrorEntry
}.

Definition initial_stats : Stats := mkStats 0 0 0 0 [].

(** An item of [documents]. *)
Record Document := mkDocument {
  doc_file : Path;
  doc_content : str
}.

(** A value of [path_match_results]. *)
Record PathInfo := mkPathInfo {
  pi_file : Path;
  pi_path_relevance : Z;
  pi_matched_terms : list str
}.

(** One analysis returned by the external reasoner: a JSON object, every
    key of which may be absent.  The relevance is an integer score, as the
    rubric of the prompt (0-29, 30-49, 50-69, 70-89, 90-100) has it. *)
Record Analysis := mkAnalysis {
  a_file : option str;
  a_relevance : option Z;
  a_summary : option str;
  a_excerpts : option (list str)
}.

(** The ['file'] of a result: a [Path] for a path match, the string of the
    analysis for a content-only match. *)
Inductive file_ref : Type :=
| FPath (p : Path)
| FStr (s : str).

(** An item of [final_results]: a dict, a key of which may be absent. *)
Record Result := mkResult {
  file : option file_ref;
  relevance : option Z;
  summary : option str;
  excerpts : option (list str);
  match_sources : option (list str);
  matched_terms : option (list str);
  path_relevance : option Z;
  content_relevance : option Z
}.

(** [d.get(key, default)] on an optional field. *)
Definition get {A} (field : option A) (default : A) : A :=
  match field with
  | Some v => v
  | None => default
  end.

(** [d[key] = v] on a dict given by its items, in insertion order. *)
Fixpoint dict_set {V} (d : list (str * V)) (key : str) (v : V)
  : list (str * V) :=
  match d with
  | [] => [(key, v)]
  | (k, v') :: d' =>
      if str_eqb k key then (k, v) :: d' else (k, v') :: dict_set d' key v
  end.

(** [key in d] *)
Definition dict_mem {V} (d : list (str * V)) (key : str) : bool :=
  match dict_get d key with
  | Some _ => true
  | None => false
  end.

(** [x in l] for a list of strings. *)
Definition list_mem (x : str) (l : list str) : bool := existsb (str_eqb x) l.

(** ** Sorting: [sorted(l)] and [l.sort(key=..., reverse=True)]

    Python's sort is stable; an insertion sort that puts an element before
    the first later element it is allowed to precede gives the same list. *)
Fixpoint insert_by {A} (leb : A -> A -> bool) (x : A) (l : list A) : list A :=
  match l with
  | [] => [x]
  | y :: l' => if leb x y then x :: l else y :: insert_by leb x l'
  end.

Definition sort_by {A} (leb : A -> A -> bool) (l : list A) : list A :=
  fold_right (insert_by leb) [] l.

(** ** [range] and [//] *)

Definition builtin_error (cls msg : string) : exn :=
  Exception (mkExc (lit cls) [lit "Exception"] (lit msg)).

(** [a // b] *)
Definition floordiv (a b : Z) : result Z :=
  if b =? 0
  then Raise (builtin_error "ZeroDivisionError" "integer division or modulo by zero")
  else Ret (a / b).

Fixpoint range_up (fuel : nat) (i stop step : Z) : list Z :=
  match fuel with
  | O => []
  | S fuel' =>
      if i <? stop then i :: range_up fuel' (i + step) stop step else []
  end.

Fixpoint range_down (fuel : nat) (i stop step : Z) : list Z :=
  match fuel with
  | O => []
  | S fuel' =>
      if stop <? i then i :: range_down fuel' (i + step) stop step else []
  end.

(** [list(range(start, stop, step))] *)
Definition range (start stop step : Z) : result (list Z) :=
  if step =? 0
  then Raise (builtin_error "ValueError" "range() arg 3 must not be zero")
  else if 0 <? step
       then Ret (range_up (Z.to_nat (stop - start)) start stop step)
       else Ret (range_down (Z.to_nat (start - stop)) start stop step).

(** [[f(x) for x in l]] when [f] may raise. *)
Fixpoint map_result {A B} (f : A -> result B) (l : list A) : result (list B) :=
  match l with
  | [] => Ret []
  | x :: l' => y <- f x ;; ys <- map_result f l' ;; Ret (y :: ys)
  end.

(** ** class DocumentSearcher *)

Definition RELEVANCE_THRESHOLD : Z := 30.

Definition extensions : list str :=
  [lit ".pdf"; lit ".docx"; lit ".doc"; lit ".xlsx"; lit ".xls";
   lit ".txt"; lit ".md"; lit ".jpg"; lit ".jpeg"; lit ".png"].

(** [list(self.folder.rglob(f'*{ext}'))]: the entries below the folder whose
    name ends with the extension, each as [folder / relative]. *)
Definition rglob (w : World) (root : Path) (ext : str) : list Path :=
  List.map (joinpath root)
    (filter (fun rel => endswith (last rel []) ext) (rglob_entries w root)).

(** The set [extensions] is walked in some order; the sort that follows
    makes the order immaterial. *)
Definition discover_files (w : World) (self : DocumentSearcher) (stats : Stats)
  : list Path * Stats :=
  let files := flat_map (rglob w (folder self)) extensions in
  let files := sort_by path_leb files in
  let files :=
    if negb (max_docs self =? 0) && (len files >? max_docs self)
    then slice_to files (max_docs self)
    else files in
  (files,
   mkStats (len files) (successfully_read stats) (skipped stats)
           (matched stats) (errors stats)).

(** The class [[\s,，、;；]] of the query splitter. *)
Definition is_query_sep (c : char) : bool :=
  (isspace c || (c =? 44) || (c =? 65292) || (c =? 12289)
   || (c =? 59) || (c =? 65307))%N.

(** [0.3] *)
Definition path_weight : Q := 3 # 10.

(** [min(a, b)] on numbers: the first argument unless the second is
    strictly smaller. *)
Definition py_min (a b : Q) : Q := if Qle_bool a b then a else b.

(** [combined_relevance = min(100, content_relevance + (path_relevance * 0.3))] *)
Definition combined_relevance (content_rel path_rel : Z) : Q :=
  py_min (inject_Z 100)
         (inject_Z content_rel + inject_Z path_rel * path_weight)%Q.

(** ["文件/文件夹名包含: "], ["路径匹配: "], ["文件/文件夹名"], ["内容"]. *)
Definition text_name_contains : str :=
  [25991; 20214; 47; 25991; 20214; 22841; 21517; 21253; 21547; 58; 32]%N.
Definition text_path_match_colon : str := [36335; 24452; 21305; 37197; 58; 32]%N.
Definition text_file_or_folder_name : str :=
  [25991; 20214; 47; 25991; 20214; 22841; 21517]%N.
Definition text_content : str := [20869; 23481]%N.

Section Searcher.
Context `{CaseMap}.

Definition query_terms (q : str) : list str :=
  List.map (fun t => lower (strip t))
           (filter (fun t => truthy (strip t)) (re_split is_query_sep q)).

(** The [for parent in file.parents: ... break / else:] of the scoring
    loop, as the new value of [relevance]. *)
Fixpoint for_parents (term : str) (ps : list Path) (relevance : Z) : Z :=
  match ps with
  | [] => relevance + 20
  | parent :: rest =>
      if str_in term (lower (name parent)) then relevance + 30
      else for_parents term rest relevance
  end.

(** One round of [for term in matched]. *)
Definition score_term (file : Path) (relevance : Z) (term : str) : Z :=
  if str_in term (lower (name file)) then relevance + 40
  else for_parents term (parents file) relevance.

Definition _query_matches_path (self : DocumentSearcher) (file : Path)
  : bool * list str * Z :=
  let path_str := lower (path_str file) in
  let terms := query_terms (query self) in
  let matched := filter (fun term => str_in term path_str) terms in
  if negb (truthy matched) then (false, [], 0)
  else (true, matched, Z.min (fold_left (score_term file) matched 0) 100).

Definition extract_content (w : World) (self : DocumentSearcher)
  (stats : Stats) (file : Path) : result (Stats * (option str * bool)) :=
  match read w file with
  | Ret content => Ret (stats, (Some content, true))
  | Raise (ReadError msg) =>
      rel <- relative_to file (folder self) ;;
      Ret (mkStats (total_found stats) (successfully_read stats)
                   (skipped stats + 1) (matched stats)
                   (errors stats ++ [mkError (path_str rel) msg]),
           (None, false))
  | Raise e => Raise e
  end.

(** The prompt is printed and nothing is analysed: the placeholder returns
    no result. *)
Definition analyze_with_claude (self : DocumentSearcher)
  (documents : list Document) : result (list Analysis) :=
  docs_info <- map_result
    (fun doc =>
       rel <- relative_to (doc_file doc) (folder self) ;;
       Ret (path_str rel, slice_to (doc_content doc) 3000))
    documents ;;
  Ret [].

(** Step 1.5 of [search]: the dict [path_match_results]. *)
Fixpoint path_matching (self : DocumentSearcher) (files : list Path)
  (path_match_results : list (str * PathInfo)) : list (str * PathInfo) :=
  match files with
  | [] => path_match_results
  | file :: rest =>
      let '(is_match, matched_terms, relevance) :=
        _query_matches_path self file in
      path_matching self rest
        (if is_match
         then dict_set path_match_results (path_str file)
                (mkPathInfo file relevance matched_terms)
         else path_match_results)
  end.

(** Step 2: the extraction loop. *)
Fixpoint extraction (w : World) (self : DocumentSearcher) (files : list Path)
  (stats : Stats) (documents : list Document)
  : result (Stats * list Document) :=
  match files with
  | [] => Ret (stats, documents)
  | file :: rest =>
      r <- extract_content w self stats file ;;
      let '(stats, (content, success)) := r in
      match content with
      | Some content =>
          if success && truthy (strip content)
          then extraction w self rest
                 (mkStats (total_found stats) (successfully_read stats + 1)
                          (skipped stats) (matched stats) (errors stats))
                 (documents ++ [mkDocument file content])
          else extraction w self rest stats documents
      | None => extraction w self rest stats documents
      end
  end.

(** Step 3: batches of [batch_size] documents, each handed to the analyst;
    [analyze] stands for [self.analyze_with_claude]. *)
Fixpoint analyze_batches (analyze : list Document -> result (list Analysis))
  (batches : list (list Document)) (all_analyses : list Analysis)
  : result (list Analysis) :=
  match batches with
  | [] => Ret all_analyses
  | batch :: rest =>
      analyses <- analyze batch ;;
      analyze_batches analyze rest (all_analyses ++ analyses)
  end.

Definition analysis_stage (analyze : list Document -> result (list Analysis))
  (self : DocumentSearcher) (documents : list Document)
  : result (list Analysis) :=
  if truthy documents then
    floordiv (len documents + batch_size self - 1) (batch_size self) ;;;
    starts <- range 0 (len documents) (batch_size self) ;;
    let batches :=
      List.map (fun i => slice documents i (i + batch_size self)) starts in
    analyze_batches analyze batches []
  else Ret [].

(** [{a.get('file', ''): a for a in all_analyses}] *)
Definition content_analyzed (all_analyses : list Analysis)
  : list (str * Analysis) :=
  fold_left (fun d a => dict_set d (get (a_file a) []) a) all_analyses [].

(** Step 4, first loop: one result per path match. *)
Definition merge_path_match (self : DocumentSearcher)
  (content_analyzed_files : list (str * Analysis))
  (item : str * PathInfo) : result Result :=
  let '(file_key, path_info) := item in
  match dict_get content_analyzed_files file_key with
  | Some content_analysis =>
      let content_rel := get (a_relevance content_analysis) 0 in
      let path_rel := pi_path_relevance path_info in
      let combined := combined_relevance content_rel path_rel in
      Ret (mkResult (Some (FPath (pi_file path_info)))
             (Some (int_of_float combined))
             (Some (get (a_summary content_analysis) []))
             (Some (get (a_excerpts content_analysis) []))
             (Some [lit "path"; lit "content"])
             (Some (pi_matched_terms path_info))
             (Some path_rel)
             (Some content_rel))
  | None =>
      rel <- relative_to (pi_file path_info) (folder self) ;;
      Ret (mkResult (Some (FPath (pi_file path_info)))
             (Some (pi_path_relevance path_info))
             (Some (text_name_contains
                    ++ join (lit ", ") (pi_matched_terms path_info)))
             (Some [text_path_match_colon ++ path_str rel])
             (Some [lit "path"])
             (Some (pi_matched_terms path_info))
             None None)
  end.

(** Step 4, second loop: the analyses of files without a path match, each
    passed on with ['match_sources'] set. *)
Definition content_only (a : Analysis) : Result :=
  mkResult (option_map FStr (a_file a)) (a_relevance a) (a_summary a)
           (a_excerpts a) (Some [lit "content"]) None None None.

Definition merge (self : DocumentSearcher)
  (path_match_results : list (str * PathInfo)) (all_analyses : list Analysis)
  : result (list Result) :=
  let content_analyzed_files := content_analyzed all_analyses in
  from_paths <- map_result (merge_path_match self content_analyzed_files)
                  path_match_results ;;
  Ret (from_paths
       ++ List.map content_only
            (filter (fun a => negb (dict_mem path_match_results
                                               (get (a_file a) [])))
                    all_analyses)).

(** The end of [search]: threshold, then [sort(key=relevance, reverse=True)]. *)
Definition rank (final_results : list Result) : list Result :=
  sort_by (fun x y => get (relevance y) 0 <=? get (relevance x) 0)
    (filter (fun r => RELEVANCE_THRESHOLD <=? get (relevance r) 0)
            final_results).

(** The list [final_results] of a run that found files. *)
Definition final_results_of
  (analyze : DocumentSearcher -> list Document -> result (list Analysis))
  (w : World) (self : DocumentSearcher) (files : list Path) (stats : Stats)
  : result (Stats * list Result) :=
  let path_match_results := path_matching self files [] in
  r <- extraction w self files stats [] ;;
  let '(stats, documents) := r in
  all_analyses <- analysis_stage (analyze self) self documents ;;
  final_results <- merge self path_match_results all_analyses ;;
  Ret (stats, final_results).

(** [search], with the analyst as a parameter. *)
Definition search_with
  (analyze : DocumentSearcher -> list Document -> result (list Analysis))
  (w : World) (self : DocumentSearcher) (stats : Stats)
  : result (Stats * list Result) :=
  let '(files, stats) := discover_files w self stats in
  if negb (truthy files) then Ret (stats, [])
  else
    r <- final_results_of analyze w self files stats ;;
    let '(stats, final_results) := r in
    let matched := rank final_results in
    Ret (mkStats (total_found stats) (successfully_read stats)
                 (skipped stats) (len matched) (errors stats),
         matched).

(** [search] as the script runs it on its own. *)
Definition search := search_with analyze_with_claude.

(** ** [generate_report] *)

Definition nl : str := [10%N].

(** [Path(file_path).name] for the ['file'] of a result. *)
Definition file_ref_name (f : file_ref) : str :=
  match f with
  | FPath p => name p
  | FStr s => name (Path_of_str s)
  end.

(** The lines appended for result number [i]. *)
Definition result_lines (i : Z) (result : Result) : list str :=
  let relevance := get (relevance result) 0 in
  let file_path := get (file result) (FStr (lit "Unknown")) in
  let summary := get (summary result) (lit "No summary available.") in
  let excerpts := get (excerpts result) [] in
  let match_sources := get (match_sources result) [lit "content"] in
  let matched_terms := get (matched_terms result) [] in
  let file_name := file_ref_name file_path in
  let source_badge :=
    if list_mem (lit "path") match_sources then [32; 128269]%N else [] in
  [lit "### " ++ str_of_int i ++ lit ". " ++ file_name ++ source_badge;
   lit "**Relevance:** " ++ str_of_int relevance ++ lit "/100"]
  ++ (if list_mem (lit "path") match_sources then
        let source_labels :=
          (if list_mem (lit "path") match_sources
           then [text_file_or_folder_name] else [])
          ++ (if list_mem (lit "content") match_sources
              then [text_content] else []) in
        [lit "**Match Sources:** " ++ join (lit ", ") source_labels]
        ++ (if truthy matched_terms
            then [lit "**Matched Terms:** " ++ join (lit ", ") matched_terms]
            else [])
        ++ (if list_mem (lit "content") match_sources then
              let path_rel := get (path_relevance result) 0 in
              let content_rel := get (content_relevance result) 0 in
              [lit "**Score Breakdown:** " ++ [36335; 24452; 21305; 37197; 32]%N
               ++ str_of_int path_rel
               ++ [32; 43; 32; 20869; 23481; 21305; 37197; 32]%N
               ++ str_of_int content_rel]
            else [])
      else [])
  ++ [lit "**Summary:** " ++ summary]
  ++ (if truthy excerpts
      then (nl ++ lit "**Relevant Excerpts:**")
           :: List.map (fun excerpt => lit "> " ++ excerpt) excerpts
      else [])
  ++ [nl ++ lit "---" ++ nl].

(** [for i, result in enumerate(results, i): ...] *)
Fixpoint results_lines (i : Z) (results : list Result) : list str :=
  match results with
  | [] => []
  | result :: rest => result_lines i result ++ results_lines (i + 1) rest
  end.

Definition matched_section (results : list Result) : list str :=
  if truthy results
  then (lit "## Matched Documents" ++ nl) :: results_lines 1 results
  else [].

(** One bullet of the skipped-files section. *)
Definition skipped_line (error : ErrorEntry) : str :=
  lit "- `" ++ err_file error ++ lit "` - " ++ err_error error.

Definition skipped_section (stats : Stats) : list str :=
  if truthy (errors stats)
  then (lit "## Skipped Files" ++ nl)
       :: List.map skipped_line (errors stats) ++ [[]]
  else [].

Definition report_header (w : World) (self : DocumentSearcher) (stats : Stats)
  : list str :=
  [lit "# Document Search Results";
   [];
   lit "**Query:** `" ++ query self ++ lit "`";
   lit "**Folder:** `" ++ path_str (folder self) ++ lit "`";
   lit "**Scanned:** " ++ str_of_int (total_found stats)
     ++ lit " documents | **Matched:** " ++ str_of_int (matched stats)
     ++ lit " documents | **Skipped:** " ++ str_of_int (skipped stats);
   lit "**Generated:** " ++ now_utc w ++ lit " UTC";
   [];
   lit "---";
   []].

Definition statistics_section (stats : Stats) : list str :=
  [lit "## Statistics" ++ nl;
   lit "| Metric | Count |";
   lit "|--------|-------|";
   lit "| Total files scanned | " ++ str_of_int (total_found stats) ++ lit " |";
   lit "| Successfully read | " ++ str_of_int (successfully_read stats)
     ++ lit " |";
   lit "| Relevant matches (" ++ [8805%N] ++ str_of_int RELEVANCE_THRESHOLD
     ++ lit "%) | " ++ str_of_int (matched stats) ++ lit " |";
   lit "| Files skipped (errors) | " ++ str_of_int (skipped stats) ++ lit " |";
   []].

Definition report_footer : list str :=
  [lit "---"; []; lit "*Generated by Document AI Search skill*"].

(** The lines of the report, section by section. *)
Definition report_lines (w : World) (self : DocumentSearcher) (stats : Stats)
  (results : list Result) : list str :=
  report_header w self stats
  ++ matched_section results
  ++ statistics_section stats
  ++ skipped_section stats
  ++ report_footer.

(** [generate_report]: the text handed to [output_path.write_text]. *)
Definition generate_report (w : World) (self : DocumentSearcher)
  (stats : Stats) (results : list Result) (output_path : Path) : result str :=
  let report_content := join nl (report_lines w self stats results) in
  call (write_text w output_path report_content) ;;;
  Ret report_content.

(** ** [main] *)

(** The namespace of [parser.parse_args()]. *)
Record Args := mkArgs {
  arg_folder : Path;
  arg_query : str;
  arg_output : Path;
  arg_batch_size : Z;
  arg_max_docs : Z;
  arg_quiet : bool
}.

(** What [argparse] makes of the command line: it leaves with status 2 on a
    usage error, with status 0 after [--help], or it returns the
    namespace. *)
Inductive parse_outcome : Type :=
| UsageError
| HelpShown
| Parsed (args : Args).

Definition main
  (analyze : DocumentSearcher -> list Document -> result (list Analysis))
  (w : World) (cmdline : parse_outcome) : termination :=
  match cmdline with
  | UsageError => SysExit 2
  | HelpShown => SysExit 0
  | Parsed args =>
      if negb (path_exists w (arg_folder args)) then SysExit 1
      else if negb (path_is_dir w (arg_folder args)) then SysExit 1
      else
        let searcher :=
          mkSearcher (arg_folder args) (arg_query args)
                     (arg_batch_size args) (arg_max_docs args) in
        match search_with analyze w searcher initial_stats with
        | Raise e => Uncaught e
        | Ret (stats, results) =>
            match generate_report w searcher stats results (arg_output args) with
            | Raise e => Uncaught e
            | Ret _ => if truthy results then SysExit 0 else SysExit 0
            end
        end
  end.

End Searcher.

End SearchDocuments.
Export SearchDocuments.

(* ================================================================== *)
(** * The specification's vocabulary *)
(* ================================================================== *)

Module Spec.

(** [t] occurs in [s]: some slice of [s] is [t]. *)
Definition occurs (t s : str) : Prop := exists a b, s = a ++ t ++ b.


Definition sum (l : list Z) : Z := fold_right Z.add 0 l.

(** Descending order of a key: [x] may stand before [y]. *)
Definition desc_leb {A} (key : A -> Z) (x y : A) : bool := key y <=? key x.
Definition desc {A} (key : A -> Z) (x y : A) : Prop := key y <= key x.

(** [r.get('relevance', 0)] *)
Definition relevance_of (r : Result) : Z := get (relevance r) 0.

(** OCR fails on the file with exception [e]: opening the image raises
    [e]; or the first OCR call raises [e], which is not a [TesseractError];
    or it raises a [TesseractError] and the English-only retry raises [e]. *)
Inductive ocr_failure (w : World) (file : Path) : pyexc -> Prop :=
| open_fails e :
    image_open w file = Err e -> ocr_failure w file e
| ocr_fails image e :
    image_open w file = Ok image ->
    ocr w image (lit "chi_sim+eng") = Err e ->
    isinstance e (lit "TesseractError") = false ->
    ocr_failure w file e
| retry_fails image e1 e :
    image_open w file = Ok image ->
    ocr w image (lit "chi_sim+eng") = Err e1 ->
    isinstance e1 (lit "TesseractError") = true ->
    ocr w image (lit "eng") = Err e ->
    ocr_failure w file e.

(** A PDF that [pypdf] opens with [reader] and reports as encrypted. *)
Definition encrypted_pdf (w : World) (file : Path) (reader : PdfReader) : Prop :=
  import_pypdf w = Ok tt
  /\ open_pdf w (path_str file) = Ok reader
  /\ is_encrypted reader = true.

(** The file lies below the search folder. *)
Definition below (self : DocumentSearcher) (f : Path) : Prop :=
  exists rel, rel <> [] /\ f = joinpath (folder self) rel.

Section Scoring.
Context `{CaseMap}.

(** The error entries a pass over [files] appends, in order. *)
Definition error_entries (w : World) (self : DocumentSearcher)
  (files : list Path) : list ErrorEntry :=
  flat_map
    (fun f => match read w f, relative_to f (folder self) with
              | Raise (ReadError msg), Ret rel => [mkError (path_str rel) msg]
              | _, _ => []
              end)
    files.

(** The documents a pass over [files] collects, in order. *)
Definition read_documents (w : World) (files : list Path) : list Document :=
  flat_map
    (fun f => match read w f with
              | Ret content =>
                  if truthy (strip content) then [mkDocument f content] else []
              | Raise _ => []
              end)
    files.


(** The term occurs in the name of some ancestor directory of the file. *)
Definition in_ancestor_name (term : str) (file : Path) : Prop :=
  exists d, In d (parents file) /\ occurs term (lower (name d)).

(** The points one matched term brings, as the specification words it:
    40 in the filename, else 30 in an ancestor directory name, else 20. *)
Inductive term_points (file : Path) (term : str) : Z -> Prop :=
| points_filename :
    occurs term (lower (name file)) -> term_points file term 40
| points_ancestor :
    ~ occurs term (lower (name file)) ->
    in_ancestor_name term file -> term_points file term 30
| points_elsewhere :
    ~ occurs term (lower (name file)) ->
    ~ in_ancestor_name term file -> term_points file term 20.

(** The terms of the query that occur in the lowercased path string. *)
Definition matched_terms_of (self : DocumentSearcher) (file : Path) : list str :=
  filter (fun term => str_in term (lower (path_str file)))
         (query_terms (query self)).

(** What every item of [path_match_results] is: keyed by the string of its
    file, and holding what [_query_matches_path] returned for that file. *)
Definition path_entry (self : DocumentSearcher) (item : str * PathInfo) : Prop :=
  fst item = path_str (pi_file (snd item))
  /\ _query_matches_path self (pi_file (snd item))
     = (true, pi_matched_terms (snd item), pi_path_relevance (snd item)).

(** The list [final_results] a run of [search] built before the threshold:
    empty when no file was found. *)
Definition merged_of
  (analyze : DocumentSearcher -> list Document -> result (list Analysis))
  (w : World) (self : DocumentSearcher) (stats : Stats)
  (final_results : list Result) : Prop :=
  let '(files, stats1) := discover_files w self stats in
  (files = [] /\ final_results = [])
  \/ (files <> []
      /\ exists stats2,
           final_results_of analyze w self files stats1
           = Ret (stats2, final_results)).

End Scoring.

Section Accounting.
Context `{CaseMap}.

(** The files a pass over [files] reads to a blank text: they become
    neither a document nor an error entry. *)
Definition blank_files (w : World) (files : list Path) : list Path :=
  filter (fun f => match read w f with
                   | Ret content => negb (truthy (strip content))
                   | Raise _ => false
                   end)
         files.

End Accounting.

(** Decoding the file with [encoding] fails with one of the two exceptions
    [_read_txt] goes on after. *)
Definition undecodable (w : World) (file : Path) (encoding : str) : Prop :=
  exists e,
    read_text w file encoding = Err e
    /\ isinstance e (lit "UnicodeDecodeError")
       || isinstance e (lit "LookupError") = true.

(** A string with a character that is not whitespace. *)
Definition nonblank (s : str) : Prop := truthy (strip s) = true.

End Spec.
Export Spec.

(* ================================================================== *)
(** * Concrete inputs used by the examples *)
(* ================================================================== *)

Module Examples.

Definition docs : Path := mkPath false [lit "docs"].

(** [docs/notes/x.txt] *)
Definition notes_x : Path := joinpath docs [lit "notes"; lit "x.txt"].

(** [docs/budget.txt] *)
Definition budget_txt : Path := joinpath docs [lit "budget.txt"].

Definition searcher (q : string) : DocumentSearcher :=
  mkSearcher docs (lit q) 5 50.




Definition merged_notes : list Result :=
  [mkResult (Some (FPath notes_x)) (Some 85) (Some (lit "meeting notes"))
            (Some [lit "agenda"]) (Some [lit "path"; lit "content"])
            (Some [lit "notes"; lit "s/n"]) (Some 50) (Some 70)].

(** Exceptions the libraries raise in the examples. *)
Definition os_error : pyexc :=
  mkExc (lit "FileNotFoundError") [lit "OSError"; lit "Exception"]
        (lit "No such file or directory").

Definition wrong_password : pyexc :=
  mkExc (lit "DependencyError") [lit "Exception"]
        (lit "cryptography>=3.1 is required for AES algorithm").

Definition tesseract_missing : pyexc :=
  mkExc (lit "TesseractNotFoundError") [lit "OSError"; lit "Exception"]
        (lit "tesseract is not installed or it's not in your PATH").

(** A world with the given entries below every folder, the given PDF
    library behaviour and the given OCR behaviour; every text file reads as
    ["hello world"], every library is installed, no external program is,
    every DOCX holds a main document without text, every workbook is empty,
    and every path exists. *)
Definition world (entries : list (list str)) (pdf : str -> lib PdfReader)
  (image : Path -> lib N) (ocr_run : N -> str -> str -> lib str) : World :=
  {| platform_win32 := false;
     path_exists := fun _ => true;
     path_is_dir := fun _ => true;
     read_text := fun _ _ => Ok (lit "hello world");
     read_text_ignoring_errors := fun _ _ => Ok (lit "hello world");
     unlink := fun _ => Ok tt;
     write_text := fun _ _ => Ok tt;
     rglob_entries := fun _ => entries;
     run := fun _ => Err os_error;
     import_pypdf := Ok tt;
     open_pdf := pdf;
     zip_open := fun _ => Ok 0%N;
     zip_read := fun _ _ => Ok (lit "<w:document/>");
     import_defusedxml := Ok tt;
     safe_fromstring := fun _ => Ok (mkXmlTree []);
     fromstring := fun _ => Ok (mkXmlTree []);
     import_openpyxl := Ok tt;
     load_workbook := fun _ => Ok (mkXlsxWorkbook [] (Ok tt));
     import_xlrd := Ok tt;
     open_workbook := fun _ => Ok (mkXlsWorkbook []);
     word_automation := fun _ => Err os_error;
     import_ocr := Ok tt;
     image_open := image;
     image_to_string := ocr_run;
     now_utc := lit "2024-01-01 00:00:00" |}.

Definition no_pdf : str -> lib PdfReader := fun _ => Err os_error.
Definition no_image : Path -> lib N := fun _ => Err os_error.
Definition no_ocr : N -> str -> str -> lib str := fun _ _ _ => Err os_error.

(** [docs/budget.txt] and [docs/notes/x.txt] on disk. *)
Definition two_files : World :=
  world [[lit "budget.txt"]; [lit "notes"; lit "x.txt"]] no_pdf no_image no_ocr.

(** [docs/scan.png] in a world where the Tesseract binary is missing. *)
Definition scan_png : Path := joinpath docs [lit "scan.png"].

Definition broken_ocr : World :=
  world [[lit "scan.png"]] no_pdf (fun _ => Ok 0%N)
        (fun _ _ _ => Err tesseract_missing).

(** [docs/a.docx], which holds no text, and [docs/b.txt]. *)
Definition empty_docx_then_txt : World :=
  world [[lit "a.docx"]; [lit "b.txt"]] no_pdf no_image no_ocr.



(** [docs/secret.pdf], encrypted.  In [empty_password] the reader accepts
    the empty password and yields one page; in [locked] decrypting raises. *)
Definition secret_pdf : Path := joinpath docs [lit "secret.pdf"].

Definition owner_locked_reader : PdfReader :=
  mkPdfReader true (fun _ => Ok tt)
              (Ok [mkPdfPage (Ok (lit "quarterly figures"))]).

Definition locked_reader : PdfReader :=
  mkPdfReader true (fun _ => Err wrong_password) (Err wrong_password).

(** A reader whose [decrypt] returns without unlocking the file: reading the
    pages then fails. *)
Definition not_decrypted : pyexc :=
  mkExc (lit "FileNotDecryptedError") [lit "PdfReadError"; lit "Exception"]
        (lit "File has not been decrypted").

Definition still_locked_reader : PdfReader :=
  mkPdfReader true (fun _ => Ok tt) (Err not_decrypted).

Definition still_locked : World :=
  world [[lit "secret.pdf"]] (fun _ => Ok still_locked_reader) no_image no_ocr.

Definition empty_password : World :=
  world [[lit "secret.pdf"]] (fun _ => Ok owner_locked_reader) no_image no_ocr.

Definition locked : World :=
  world [[lit "secret.pdf"]] (fun _ => Ok locked_reader) no_image no_ocr.

(** [docs/notes.txt] beside the locked [docs/secret.pdf], and an analyst
    that answers about [secret.pdf] whatever it is given. *)
Definition locked_beside_notes : World :=
  world [[lit "notes.txt"]; [lit "secret.pdf"]] (fun _ => Ok locked_reader)
        no_image no_ocr.

Definition analysis_of_secret : Analysis :=
  mkAnalysis (Some (lit "secret.pdf")) (Some 90) (Some (lit "quarterly figures"))
             None.

Definition naming_secret (self : DocumentSearcher) (documents : list Document)
  : result (list Analysis) :=
  Ret [analysis_of_secret].

(** [docs/report.pdf], the second page of which fails to extract. *)
Definition report_pdf : Path := joinpath docs [lit "report.pdf"].

Definition broken_page : pyexc :=
  mkExc (lit "PdfReadError") [lit "Exception"] (lit "Invalid Elementary Object").

Definition damaged_reader : PdfReader :=
  mkPdfReader false (fun _ => Ok tt)
              (Ok [mkPdfPage (Ok (lit "page one")); mkPdfPage (Err broken_page)]).

Definition damaged : World :=
  world [[lit "report.pdf"]] (fun _ => Ok damaged_reader) no_image no_ocr.

(** [docs/.pdf]: a file whose whole name is an extension. *)
Definition dot_pdf : Path := joinpath docs [lit ".pdf"].

Definition hidden : World := world [[lit ".pdf"]] no_pdf no_image no_ocr.

(** [docs/old.doc], and a world where running [antiword] is not permitted. *)
Definition old_doc : Path := joinpath docs [lit "old.doc"].

Definition not_permitted : pyexc :=
  mkExc (lit "PermissionError") [lit "OSError"; lit "Exception"]
        (lit "[Errno 13] Permission denied: 'antiword'").

Definition with_run (w : World) (r : list str -> lib (Z * str)) : World :=
  {| platform_win32 := platform_win32 w;
     path_exists := path_exists w;
     path_is_dir := path_is_dir w;
     read_text := read_text w;
     read_text_ignoring_errors := read_text_ignoring_errors w;
     unlink := unlink w;
     write_text := write_text w;
     rglob_entries := rglob_entries w;
     run := r;
     import_pypdf := import_pypdf w;
     open_pdf := open_pdf w;
     zip_open := zip_open w;
     zip_read := zip_read w;
     import_defusedxml := import_defusedxml w;
     safe_fromstring := safe_fromstring w;
     fromstring := fromstring w;
     import_openpyxl := import_openpyxl w;
     load_workbook := load_workbook w;
     import_xlrd := import_xlrd w;
     open_workbook := open_workbook w;
     word_automation := word_automation w;
     import_ocr := import_ocr w;
     image_open := image_open w;
     image_to_string := image_to_string w;
     now_utc := now_utc w |}.



Definition antiword_forbidden : World :=
  with_run (world [[lit "old.doc"]] no_pdf no_image no_ocr)
           (fun argv =>
              if str_eqb (hd [] argv) (lit "antiword") then Err not_permitted
              else Ok (0, lit "converted"))%Z.

End Examples.

(* ================================================================== *)
(** * Properties *)
(* ================================================================== *)

(** ** Strings *)

Lemma str_eqb_refl (a : str) : str_eqb a a = true.
Proof.
  induction a as [|x a IH]; simpl; [reflexivity|].
  now rewrite N.eqb_refl, IH.
Qed.

Lemma str_eqb_eq (a b : str) : str_eqb a b = true <-> a = b.
Proof.
  split; [|intros ->; apply str_eqb_refl].
  revert b; induction a as [|x a IH]; intros [|y b]; simpl;
    try discriminate; try reflexivity.
  intros E. apply andb_prop in E as [E1 E2].
  apply N.eqb_eq in E1. apply IH in E2. congruence.
Qed.

Lemma startswith_spec (s t : str) :
  startswith s t = true <-> exists b, s = t ++ b.
Proof.
  revert s; induction t as [|a t IH]; intros s; cbn [startswith].
  - destruct s; cbn [startswith]; (split; [intros _; eexists; reflexivity|reflexivity]).
  - destruct s as [|c s]; cbn [startswith].
    + split; [discriminate|]. intros [b E]; discriminate.
    + rewrite andb_true_iff, N.eqb_eq, IH. split.
      * intros [-> [b ->]]. now exists b.
      * intros [b E]. injection E as -> ->. eauto.
Qed.

(** [t in s] decides [occurs t s]. *)
Lemma str_in_spec (t s : str) : str_in t s = true <-> occurs t s.
Proof.
  unfold occurs. induction s as [|c s IH]; cbn [str_in].
  - rewrite orb_false_r, startswith_spec. split.
    + intros [b E]. exists [], b. exact E.
    + intros [a [b E]]. destruct a; simpl in E.
      * now exists b.
      * discriminate.
  - rewrite orb_true_iff, startswith_spec, IH. split.
    + intros [[b E]|[a [b E]]].
      * exists [], b. exact E.
      * exists (c :: a), b. simpl. now rewrite E.
    + intros [a [b E]]. destruct a as [|x a]; simpl in E.
      * left. now exists b.
      * right. injection E as _ E. now exists a, b.
Qed.

Lemma str_in_false (t s : str) : str_in t s = false <-> ~ occurs t s.
Proof.
  rewrite <- str_in_spec. destruct (str_in t s); split; intros; congruence.
Qed.

(** ** Lexical path scoring *)

Section PathScoring.
Context `{CaseMap}.

Lemma for_parents_shift (term : str) (ps : list Path) (relevance : Z) :
  for_parents term ps relevance = relevance + for_parents term ps 0.
Proof.
  induction ps as [|p ps IH]; simpl; [lia|].
  destruct (str_in term (lower (name p))); [lia|exact IH].
Qed.

Lemma for_parents_points (term : str) (ps : list Path) :
  (for_parents term ps 0 = 30
   /\ exists d, In d ps /\ occurs term (lower (name d)))
  \/ (for_parents term ps 0 = 20
      /\ ~ exists d, In d ps /\ occurs term (lower (name d))).
Proof.
  induction ps as [|p ps IH]; simpl.
  - right. split; [reflexivity|]. intros [d [[] _]].
  - destruct (str_in term (lower (name p))) eqn:E.
    + left. split; [reflexivity|]. exists p. split; [now left|].
      now apply str_in_spec.
    + apply str_in_false in E.
      destruct IH as [[E1 [d [Hd Ho]]]|[E1 Hn]].
      * left. split; [exact E1|]. exists d. split; [now right|exact Ho].
      * right. split; [exact E1|]. intros [d [[<-|Hd] Ho]]; [tauto|].
        apply Hn. now exists d.
Qed.

(** The points the loop body adds for one term. *)
Lemma score_term_points (file : Path) (relevance : Z) (term : str) :
  exists pts, term_points file term pts
              /\ score_term file relevance term = relevance + pts.
Proof.
  unfold score_term. destruct (str_in term (lower (name file))) eqn:E.
  - exists 40. split; [|reflexivity]. constructor. now apply str_in_spec.
  - apply str_in_false in E. rewrite for_parents_shift.
    destruct (for_parents_points term (parents file)) as [[-> Hd]|[-> Hn]].
    + exists 30. split; [|reflexivity]. now constructor.
    + exists 20. split; [|reflexivity]. now constructor.
Qed.

Lemma fold_score_points (file : Path) (terms : list str) (relevance : Z) :
  exists pts, Forall2 (term_points file) terms pts
              /\ fold_left (score_term file) terms relevance
                 = relevance + sum pts.
Proof.
  revert relevance. induction terms as [|t terms IH]; intros relevance; simpl.
  - exists []. split; [constructor|simpl; lia].
  - destruct (score_term_points file relevance t) as [p [Hp ->]].
    destruct (IH (relevance + p)) as [pts [Hpts ->]].
    exists (p :: pts). split; [now constructor|simpl; lia].
Qed.

Lemma term_points_functional (file : Path) (term : str) (p q : Z) :
  term_points file term p -> term_points file term q -> p = q.
Proof. intros [] []; tauto. Qed.

Lemma term_points_range (file : Path) (term : str) (p : Z) :
  term_points file term p -> p = 40 \/ p = 30 \/ p = 20.
Proof. intros []; auto. Qed.

Lemma query_matches_path_unfold (self : DocumentSearcher) (file : Path) :
  _query_matches_path self file
  = (truthy (matched_terms_of self file), matched_terms_of self file,
     Z.min (fold_left (score_term file) (matched_terms_of self file) 0) 100).
Proof.
  unfold _query_matches_path, matched_terms_of.
  destruct (filter _ _) as [|t l]; reflexivity.
Qed.

(** The result of [_query_matches_path], term by term. *)
Lemma query_matches_path_points (self : DocumentSearcher) (file : Path) :
  exists pts,
    Forall2 (term_points file) (matched_terms_of self file) pts
    /\ _query_matches_path self file
       = (truthy (matched_terms_of self file), matched_terms_of self file,
          Z.min (sum pts) 100).
Proof.
  destruct (fold_score_points file (matched_terms_of self file) 0)
    as [pts [Hpts Hfold]].
  exists pts. split; [exact Hpts|].
  rewrite query_matches_path_unfold. now rewrite Hfold.
Qed.

(** C1. The lexical path score: every matched term (a query term that
    occurs in the lowercased path string) brings exactly 40 points when it
    occurs in the filename, 30 when it does not but occurs in the name of
    an ancestor directory, 20 otherwise; the result is the sum over the
    matched terms, capped at 100.  In particular a query whose one term
    occurs in the filename scores 40, and one whose term occurs in the
    immediate parent directory's name and not in the filename scores 30. *)
Theorem path_score_per_term (self : DocumentSearcher) (file : Path) :
  let matched := matched_terms_of self file in
  Forall (fun term => occurs term (lower (path_str file))) matched
  /\ (exists pts,
        Forall2 (term_points file) matched pts
        /\ _query_matches_path self file
           = (truthy matched, matched, Z.min (sum pts) 100))
  /\ (forall term, matched = [term] ->
        occurs term (lower (name file)) ->
        _query_matches_path self file = (true, [term], 40))
  /\ (forall term, matched = [term] ->
        parts file <> [] ->
        ~ occurs term (lower (name file)) ->
        occurs term (lower (name (parent file))) ->
        _query_matches_path self file = (true, [term], 30)).
Proof.
  intros matched.
  destruct (query_matches_path_points self file) as [pts [Hpts Hrun]].
  fold matched in Hpts, Hrun.
  split; [|split; [|split]].
  - apply Forall_forall. intros term Hin.
    apply filter_In in Hin as [_ Hin]. now apply str_in_spec.
  - now exists pts.
  - intros term E Hocc. rewrite Hrun. rewrite E in Hpts |- *.
    inversion Hpts as [|? p ? ps Hp Hps]; subst. inversion Hps; subst.
    rewrite (term_points_functional Hp (points_filename file Hocc)).
    reflexivity.
  - intros term E Hparts Hno Hocc. rewrite Hrun. rewrite E in Hpts |- *.
    inversion Hpts as [|? p ? ps Hp Hps]; subst. inversion Hps; subst.
    assert (Hanc : in_ancestor_name term file).
    { exists (parent file). split; [|exact Hocc].
      unfold parents, parent. apply in_map_iff.
      exists (Nat.pred (List.length (parts file))). split.
      - f_equal. destruct (parts file) as [|c l] using rev_ind; [tauto|].
        rewrite removelast_last, length_app, Nat.add_comm. simpl.
        now rewrite firstn_app, Nat.sub_diag, firstn_all, app_nil_r.
      - apply -> in_rev. apply in_seq.
        destruct (parts file); [tauto|simpl; lia]. }
    rewrite (term_points_functional Hp (points_ancestor Hno Hanc)).
    reflexivity.
Qed.

End PathScoring.

Example path_score_example :
  _query_matches_path (H := ascii_case) (Examples.searcher "Notes, s/n")
    Examples.notes_x
  = (true, [lit "notes"; lit "s/n"], 50).
Proof. vm_compute. reflexivity. Qed.

(** ** Rational arithmetic of the merge *)








(** ** Dicts and loops that may raise *)

Lemma dict_set_In {V} (d : list (str * V)) (key : str) (v : V) (k : str) (x : V) :
  In (k, x) (dict_set d key v) -> In (k, x) d \/ (k = key /\ x = v).
Proof.
  induction d as [|[k' v'] d IH]; simpl.
  - intros [E|[]]. injection E as <- <-. auto.
  - destruct (str_eqb k' key) eqn:Ek; simpl.
    + apply str_eqb_eq in Ek. subst k'.
      intros [E|Hin]; [injection E as <- <-|]; auto.
    + intros [E|Hin]; [auto|]. destruct (IH Hin); auto.
Qed.

Lemma map_result_Ret {A B} (f : A -> result B) (l : list A) (ys : list B) :
  map_result f l = Ret ys -> Forall2 (fun x y => f x = Ret y) l ys.
Proof.
  revert ys. induction l as [|x l IH]; simpl; intros ys E.
  - injection E as <-. constructor.
  - destruct (f x) as [y|e] eqn:Ey; simpl in E; [|discriminate].
    destruct (map_result f l) as [ys'|e] eqn:El; simpl in E; [|discriminate].
    injection E as <-. constructor; auto.
Qed.

Lemma Forall2_In_l {A B} (R : A -> B -> Prop) (l : list A) (l' : list B) (x : A) :
  Forall2 R l l' -> In x l -> exists y, In y l' /\ R x y.
Proof.
  induction 1 as [|a b l l' Hab _ IH]; simpl; [tauto|].
  intros [<-|Hin]; [eauto|]. destruct (IH Hin) as [y [Hy HR]]; eauto.
Qed.

Lemma Forall2_In_r {A B} (R : A -> B -> Prop) (l : list A) (l' : list B) (y : B) :
  Forall2 R l l' -> In y l' -> exists x, In x l /\ R x y.
Proof.
  induction 1 as [|a b l l' Hab _ IH]; simpl; [tauto|].
  intros [<-|Hin]; [eauto|]. destruct (IH Hin) as [x [Hx HR]]; eauto.
Qed.

(** ** Merging path matches and analyses *)

Section Merging.
Context `{CaseMap}.

Lemma sum_points_tens (file : Path) (terms : list str) (pts : list Z) :
  Forall2 (term_points file) terms pts -> exists k, sum pts = 10 * k /\ 0 <= k.
Proof.
  induction 1 as [|t p terms pts Hp _ [k [E Hk]]].
  - exists 0. split; [reflexivity|lia].
  - change (sum (p :: pts)) with (p + sum pts). rewrite E.
    destruct (term_points_range Hp) as [-> | [-> | ->]];
      [exists (4 + k)|exists (3 + k)|exists (2 + k)]; lia.
Qed.


Lemma path_matching_entries (self : DocumentSearcher) (files : list Path)
  (d : list (str * PathInfo)) :
  Forall (path_entry self) d ->
  Forall (path_entry self) (path_matching self files d).
Proof.
  revert d. induction files as [|file files IH]; intros d Hd; simpl; [exact Hd|].
  destruct (_query_matches_path self file) as [[is_match terms] score] eqn:E.
  apply IH. destruct is_match; [|exact Hd].
  apply Forall_forall. intros [k info] Hin.
  apply dict_set_In in Hin as [Hin|[-> ->]].
  - now apply (proj1 (Forall_forall _ _) Hd).
  - split; [reflexivity|exact E].
Qed.

Lemma merge_unfold (self : DocumentSearcher) (d : list (str * PathInfo))
  (all_analyses : list Analysis) (final_results : list Result) :
  merge self d all_analyses = Ret final_results ->
  exists from_paths,
    Forall2 (fun item r =>
               merge_path_match self (content_analyzed all_analyses) item = Ret r)
            d from_paths
    /\ final_results
       = from_paths
         ++ List.map content_only
              (filter (fun a => negb (dict_mem d (get (a_file a) [])))
                      all_analyses).
Proof.
  unfold merge. intros E.
  destruct (map_result _ d) as [from_paths|e] eqn:Em; simpl in E; [|discriminate].
  injection E as <-. exists from_paths. split; [|reflexivity].
  now apply map_result_Ret.
Qed.


End Merging.


(** ** The stored score is the truncated one *)



Section Truncation.
Context `{CaseMap}.


End Truncation.



(** ** The stable insertion sort *)

Section Sorting.
Variable A : Type.
Variable key : A -> Z.

Local Abbreviation desc_leb := (desc_leb key).
Local Abbreviation desc := (desc key).

Lemma insert_by_perm (leb : A -> A -> bool) (x : A) (l : list A) :
  Permutation (insert_by leb x l) (x :: l).
Proof.
  induction l as [|y l IH]; simpl; [reflexivity|].
  destruct (leb x y); [reflexivity|].
  rewrite IH. apply perm_swap.
Qed.

Lemma sort_by_perm (leb : A -> A -> bool) (l : list A) :
  Permutation (sort_by leb l) l.
Proof.
  induction l as [|x l IH]; simpl; [reflexivity|].
  rewrite insert_by_perm. now constructor.
Qed.

Lemma insert_desc_sorted (x : A) (l : list A) :
  StronglySorted desc l -> StronglySorted desc (insert_by desc_leb x l).
Proof.
  induction 1 as [|y l Hl IH Hy]; simpl.
  - repeat constructor.
  - unfold desc_leb at 1. destruct (Z.leb_spec (key y) (key x)) as [Hle|Hlt].
    + constructor; [now constructor|].
      constructor; [exact Hle|].
      apply Forall_forall. intros z Hz. unfold desc.
      pose proof (proj1 (Forall_forall _ _) Hy z Hz) as Hyz.
      unfold desc in Hyz. lia.
    + constructor; [exact IH|].
      apply Forall_forall. intros z Hz.
      apply (Permutation_in _ (insert_by_perm desc_leb x l)) in Hz.
      destruct Hz as [<-|Hz]; [unfold desc; lia|].
      exact (proj1 (Forall_forall _ _) Hy z Hz).
Qed.

Lemma sort_desc_sorted (l : list A) : StronglySorted desc (sort_by desc_leb l).
Proof.
  induction l as [|x l IH]; simpl; [constructor|].
  now apply insert_desc_sorted.
Qed.

(** Stability: the elements of one key keep their order. *)
Lemma sort_desc_stable (l : list A) (v : Z) :
  filter (fun x => key x =? v) (sort_by desc_leb l)
  = filter (fun x => key x =? v) l.
Proof.
  induction l as [|x l IH]; [reflexivity|].
  cbn [sort_by fold_right]. fold (sort_by desc_leb l).
  cbn [filter]. rewrite <- IH. clear IH.
  induction (sort_by desc_leb l) as [|y s IHs]; [reflexivity|].
  cbn [insert_by]. unfold desc_leb at 1.
  destruct (Z.leb_spec (key y) (key x)) as [Hle|Hlt]; [reflexivity|].
  cbn [filter]. rewrite IHs.
  destruct (Z.eqb_spec (key x) v), (Z.eqb_spec (key y) v);
    try reflexivity; lia.
Qed.

End Sorting.

(** ** Threshold and order of the final list *)

Lemma rank_spec (final_results : list Result) :
  Permutation (rank final_results)
    (filter (fun r => RELEVANCE_THRESHOLD <=? relevance_of r) final_results)
  /\ StronglySorted (desc relevance_of) (rank final_results)
  /\ (forall r, In r (rank final_results)
                <-> In r final_results /\ RELEVANCE_THRESHOLD <= relevance_of r).
Proof.
  assert (Hperm : Permutation (rank final_results)
            (filter (fun r => RELEVANCE_THRESHOLD <=? relevance_of r)
                    final_results)) by apply sort_by_perm.
  split; [exact Hperm|]. split.
  - apply (sort_desc_sorted relevance_of).
  - intros r. split.
    + intros Hin. apply (Permutation_in _ Hperm) in Hin.
      apply filter_In in Hin as [Hin Hr]. split; [exact Hin|].
      now apply Z.leb_le.
    + intros [Hin Hr]. apply (Permutation_in _ (Permutation_sym Hperm)).
      apply filter_In. split; [exact Hin|]. now apply Z.leb_le.
Qed.

Section Ranking.
Context `{CaseMap}.

Lemma search_with_unfold
  (analyze : DocumentSearcher -> list Document -> result (list Analysis))
  (w : World) (self : DocumentSearcher) (stats stats' : Stats)
  (results : list Result) :
  search_with analyze w self stats = Ret (stats', results) ->
  exists final_results,
    merged_of analyze w self stats final_results
    /\ results = rank final_results.
Proof.
  unfold search_with, merged_of.
  destruct (discover_files w self stats) as [files stats1].
  destruct files as [|f files]; cbn [truthy negb].
  - intros E. injection E as <- <-. exists []. split; [now left|reflexivity].
  - destruct (final_results_of _ _ _ _ _) as [[stats2 final]|e] eqn:E;
      cbn [bind]; [|discriminate].
    intros E'. injection E' as <- <-. exists final. split; [|reflexivity].
    right. split; [discriminate|]. now exists stats2.
Qed.

(** C4. The list [search] returns holds exactly the merged results whose
    relevance is at least the threshold 30 (each as often as it was merged,
    whatever its match sources), in descending order of relevance. *)
Theorem search_results_ranked
  (analyze : DocumentSearcher -> list Document -> result (list Analysis))
  (w : World) (self : DocumentSearcher) (stats stats' : Stats)
  (results : list Result) :
  search_with analyze w self stats = Ret (stats', results) ->
  exists final_results,
    merged_of analyze w self stats final_results
    /\ Permutation results
         (filter (fun r => 30 <=? get (relevance r) 0) final_results)
    /\ (forall r, In r results
                  <-> In r final_results /\ 30 <= get (relevance r) 0)
    /\ StronglySorted
         (fun a b => get (relevance b) 0 <= get (relevance a) 0) results.
Proof.
  intros E. destruct (search_with_unfold _ _ _ _ E) as [final [Hm ->]].
  exists final. destruct (rank_spec final) as [Hp [Hs Hin]].
  repeat split; try assumption; now apply Hin.
Qed.

End Ranking.

Lemma search_results_ranked_witness :
  exists results,
    search (H := ascii_case) Examples.two_files (Examples.searcher "budget x")
           initial_stats
    = Ret (mkStats 2 2 0 2 [], results)
    /\ List.map relevance results = [Some 80; Some 40]
    /\ StronglySorted
         (fun a b => get (relevance b) 0 <= get (relevance a) 0) results.
Proof.
  destruct (search (H := ascii_case) Examples.two_files
              (Examples.searcher "budget x") initial_stats)
    as [[stats results]|e] eqn:E; vm_compute in E; [|discriminate].
  injection E as <- <-.
  eexists. split; [reflexivity|]. split; [reflexivity|].
  destruct (@search_results_ranked ascii_case analyze_with_claude
              Examples.two_files (Examples.searcher "budget x") initial_stats
              _ _ ltac:(vm_compute; reflexivity))
    as [final [_ [_ [_ Hsorted]]]].
  exact Hsorted.
Defined.

(** ** The extractor: truncation and the error funnel *)

Lemma len_app {A} (l l' : list A) : len (l ++ l') = len l + len l'.
Proof. unfold len. rewrite length_app. lia. Qed.

Lemma truncate_long (text : str) :
  MAX_CHARS < len text ->
  truncate text = firstn (Z.to_nat MAX_CHARS) text ++ truncation_marker.
Proof.
  intros Hlong. unfold truncate, slice_to.
  destruct (Z.gtb_spec (len text) MAX_CHARS) as [_|Hle]; [reflexivity|lia].
Qed.

Lemma truncate_short (text : str) :
  len text <= MAX_CHARS -> truncate text = text.
Proof.
  intros Hshort. unfold truncate.
  destruct (Z.gtb_spec (len text) MAX_CHARS) as [Hgt|_]; [lia|reflexivity].
Qed.

Lemma truncate_length (text : str) :
  len (truncate text) <= MAX_CHARS + len truncation_marker.
Proof.
  destruct (Z_lt_le_dec MAX_CHARS (len text)) as [Hlong|Hshort].
  - rewrite (truncate_long _ Hlong), len_app. unfold len at 1.
    rewrite length_firstn. unfold MAX_CHARS in *. unfold len in Hlong. lia.
  - rewrite (truncate_short _ Hshort). unfold len at 2. lia.
Qed.

Lemma reraise_outcome {A} (body : result A) (msg : pyexc -> str) :
  (exists a, reraise_as_ReadError body msg = Ret a)
  \/ (exists m, reraise_as_ReadError body msg = Raise (ReadError m)).
Proof. destruct body as [a|[m|e]]; simpl; eauto. Qed.

Section Reading.
Context `{CaseMap}.

Lemma read_Ret (w : World) (file : Path) (text : str) :
  read w file = Ret text ->
  exists reader raw,
    dict_get readers (lower (suffix file)) = Some reader
    /\ reader w file = Ret raw
    /\ text = truncate raw.
Proof.
  unfold read. destruct (dict_get readers _) as [reader|]; [|discriminate].
  destruct (reader w file) as [raw|[m|e]] eqn:E; simpl; try discriminate.
  intros E'. injection E' as <-. now exists reader, raw.
Qed.

Lemma read_dispatch (w : World) (file : Path)
  (reader : World -> Path -> result str) (raw : str) :
  dict_get readers (lower (suffix file)) = Some reader ->
  reader w file = Ret raw ->
  read w file = Ret (truncate raw).
Proof. unfold read. intros -> E. now rewrite E. Qed.

(** [read] returns, or raises [ReadError]. *)
Lemma read_outcome (w : World) (file : Path) :
  (exists text, read w file = Ret text)
  \/ (exists msg, read w file = Raise (ReadError msg)).
Proof.
  unfold read. destruct (dict_get readers _) as [reader|].
  - apply reraise_outcome.
  - right. eauto.
Qed.

(** C3. Whenever extraction succeeds, the returned text is no longer than
    [MAX_CHARS = 100000] characters plus the truncation marker; when the
    text the format reader produced is longer than [MAX_CHARS], the result
    is its first [MAX_CHARS] characters followed by the marker (and the raw
    text itself otherwise). *)
Theorem read_truncates (w : World) (file : Path) (text : str) :
  read w file = Ret text ->
  MAX_CHARS = 100000
  /\ len text <= MAX_CHARS + len truncation_marker
  /\ exists reader raw,
       dict_get readers (lower (suffix file)) = Some reader
       /\ reader w file = Ret raw
       /\ (MAX_CHARS < len raw ->
           text = firstn (Z.to_nat MAX_CHARS) raw ++ truncation_marker)
       /\ (len raw <= MAX_CHARS -> text = raw).
Proof.
  intros E. destruct (read_Ret _ _ E) as [reader [raw [Hd [Hr ->]]]].
  split; [reflexivity|]. split; [apply truncate_length|].
  exists reader, raw. repeat split; try assumption.
  - apply truncate_long.
  - apply truncate_short.
Qed.

(** C5. For an image file, a failing OCR is not fatal: with the OCR modules
    importable, when opening the image or the OCR call fails with [e], the
    image reader returns the marker ["[OCR failed: e]"] instead of raising,
    and so does [read] for [.jpg], [.jpeg] and [.png]. *)
Theorem ocr_failure_not_fatal (w : World) (file : Path) (e : pyexc) :
  import_ocr w = Ok tt ->
  ocr_failure w file e ->
  _read_image w file = Ret (ocr_failed_marker e)
  /\ (In (lower (suffix file)) [lit ".jpg"; lit ".jpeg"; lit ".png"] ->
      read w file = Ret (truncate (ocr_failed_marker e))).
Proof.
  intros Himport Hfail.
  assert (Himg : _read_image w file = Ret (ocr_failed_marker e)).
  { unfold _read_image, with_import. rewrite Himport.
    destruct Hfail as [e Ho|image e Ho Hc Hi|image e1 e Ho Hc Hi Hr];
      rewrite Ho; cbn [call bind]; [reflexivity| |];
      rewrite Hc, Hi; [reflexivity|].
    rewrite Hr. reflexivity. }
  split; [exact Himg|].
  intros Hext. apply read_dispatch with (reader := _read_image); [|exact Himg].
  destruct Hext as [<-|[<-|[<-|[]]]]; reflexivity.
Qed.

End Reading.

Lemma read_truncates_witness :
  len (lit "hello world") <= MAX_CHARS + len truncation_marker.
Proof.
  apply (@read_truncates ascii_case Examples.two_files Examples.budget_txt
           (lit "hello world") eq_refl).
Defined.

Example truncate_example :
  len (truncate (repeat 97%N (Z.to_nat 100001))) = 100024
  /\ str_eqb (truncate (repeat 97%N (Z.to_nat 100001)))
             (repeat 97%N (Z.to_nat 100000) ++ truncation_marker) = true.
Proof. split; vm_compute; reflexivity. Qed.

Lemma ocr_failure_not_fatal_witness :
  read (H := ascii_case) Examples.broken_ocr Examples.scan_png
  = Ret (lit "[OCR failed: tesseract is not installed or it's not in your PATH]").
Proof.
  destruct (@ocr_failure_not_fatal ascii_case Examples.broken_ocr
              Examples.scan_png Examples.tesseract_missing eq_refl
              (@ocr_fails Examples.broken_ocr Examples.scan_png 0%N _
                 eq_refl eq_refl eq_refl)) as [_ Hread].
  apply Hread. right. right. left. reflexivity.
Defined.

(** ** The extraction loop of the orchestrator *)

Lemma strip_prefix_app (pre l : list str) : strip_prefix pre (pre ++ l) = Some l.
Proof.
  induction pre as [|c pre IH]; simpl; [now destruct l|].
  now rewrite str_eqb_refl.
Qed.

Lemma relative_to_joinpath (root : Path) (rel : list str) :
  relative_to (joinpath root rel) root = Ret (mkPath false rel).
Proof.
  unfold relative_to, joinpath. cbn [anchor parts].
  now rewrite Bool.eqb_reflx, strip_prefix_app.
Qed.

Section Extraction.
Context `{CaseMap}.

Lemma run_eq (a b b' c c' d : Z) (e e' : list ErrorEntry)
  (docs docs' : list Document) :
  b = b' -> c = c' -> e = e' -> docs = docs' ->
  @Ret (Stats * list Document) (mkStats a b c d e, docs)
  = Ret (mkStats a b' c' d e', docs').
Proof. now intros -> -> -> ->. Qed.

Lemma extraction_spec (w : World) (self : DocumentSearcher) (files : list Path)
  (stats : Stats) (documents : list Document) :
  Forall (below self) files ->
  extraction w self files stats documents
  = Ret (mkStats (total_found stats)
                 (successfully_read stats + len (read_documents w files))
                 (skipped stats + len (error_entries w self files))
                 (matched stats)
                 (errors stats ++ error_entries w self files),
         documents ++ read_documents w files).
Proof.
  intros Hfiles. revert stats documents.
  induction Hfiles as [|file files [rel [_ ->]] _ IH]; intros stats documents.
  - destruct stats. cbn. rewrite !Z.add_0_r, !app_nil_r. reflexivity.
  - cbn [extraction error_entries read_documents flat_map].
    fold (error_entries w self files). fold (read_documents w files).
    unfold extract_content. rewrite relative_to_joinpath.
    destruct (read_outcome w (joinpath (folder self) rel)) as [[c E]|[m E]];
      rewrite E; cbn [bind andb app].
    + destruct (truthy (strip c)); rewrite IH;
        cbn [total_found successfully_read skipped matched errors app];
        apply run_eq; rewrite ?len_app, <- ?app_assoc; try reflexivity;
        unfold len; cbn [List.length]; lia.
    + rewrite IH.
      cbn [total_found successfully_read skipped matched errors app].
      apply run_eq; rewrite ?len_app, <- ?app_assoc; try reflexivity;
        unfold len; cbn [List.length]; lia.
Qed.

End Extraction.

Lemma In_firstn {A} (n : nat) (l : list A) (x : A) : In x (firstn n l) -> In x l.
Proof.
  revert l. induction n as [|n IH]; intros [|y l]; simpl; try tauto.
  intros [->|Hin]; auto.
Qed.

Lemma In_slice_to {A} (l : list A) (k : Z) (x : A) : In x (slice_to l k) -> In x l.
Proof. unfold slice_to. destruct (0 <=? k); apply In_firstn. Qed.

(** Every discovered file is [folder / rel] for a non-empty [rel]. *)
Lemma discover_files_below (w : World) (self : DocumentSearcher) (stats : Stats) :
  Forall (below self) (fst (discover_files w self stats)).
Proof.
  apply Forall_forall. intros f Hin. unfold discover_files in Hin.
  cbn [fst] in Hin.
  assert (Hf : In f (flat_map (rglob w (folder self)) extensions)).
  { apply (Permutation_in _ (sort_by_perm path_leb _)).
    destruct (_ && _); [now apply In_slice_to in Hin|exact Hin]. }
  apply in_flat_map in Hf as [ext [Hext Hf]].
  apply in_map_iff in Hf as [rel [<- Hrel]].
  apply filter_In in Hrel as [_ Hend].
  exists rel. split; [|reflexivity]. intros ->.
  repeat (destruct Hext as [<-|Hext]; [discriminate Hend|]). destruct Hext.
Qed.

Section Collecting.
Context `{CaseMap}.

Lemma error_entries_In (w : World) (self : DocumentSearcher)
  (files : list Path) (rel : list str) (msg : str) :
  In (joinpath (folder self) rel) files ->
  read w (joinpath (folder self) rel) = Raise (ReadError msg) ->
  In (mkError (path_str (mkPath false rel)) msg) (error_entries w self files).
Proof.
  intros Hin E. apply in_flat_map. exists (joinpath (folder self) rel).
  split; [exact Hin|]. rewrite E, relative_to_joinpath. now left.
Qed.

Lemma read_documents_In (w : World) (files : list Path) (d : Document) :
  In d (read_documents w files)
  <-> In (doc_file d) files
      /\ read w (doc_file d) = Ret (doc_content d)
      /\ truthy (strip (doc_content d)) = true.
Proof.
  unfold read_documents. rewrite in_flat_map. split.
  - intros [f [Hf Hd]]. destruct (read w f) as [c|e] eqn:E; [|destruct Hd].
    destruct (truthy (strip c)) eqn:Et; [|destruct Hd].
    destruct Hd as [<-|[]]. cbn. auto.
  - intros [Hf [E Et]]. exists (doc_file d). split; [exact Hf|].
    rewrite E, Et. left. now destruct d.
Qed.

(** C7. For a file with a supported extension the extractor has a reader,
    and [read] either returns a text or raises [ReadError], nothing else.
    In the orchestrator the extraction loop over the discovered files runs
    to its end whatever the files do: each file whose extraction raised is
    in the error list with its message, each file read with a non-blank
    text is among the documents, and the counters add up. *)
Theorem per_file_errors_collected (w : World) (self : DocumentSearcher)
  (stats0 stats : Stats) :
  (forall file,
      In (lower (suffix file)) extensions ->
      (exists reader, dict_get readers (lower (suffix file)) = Some reader)
      /\ ((exists text, read w file = Ret text)
          \/ (exists msg, read w file = Raise (ReadError msg))))
  /\ (let files := fst (discover_files w self stats0) in
      extraction w self files stats []
      = Ret (mkStats (total_found stats)
                     (successfully_read stats + len (read_documents w files))
                     (skipped stats + len (error_entries w self files))
                     (matched stats)
                     (errors stats ++ error_entries w self files),
             read_documents w files)
      /\ (forall file msg,
             In file files -> read w file = Raise (ReadError msg) ->
             exists rel,
               file = joinpath (folder self) rel
               /\ In (mkError (path_str (mkPath false rel)) msg)
                     (error_entries w self files))
      /\ (forall file content,
             In file files -> read w file = Ret content ->
             truthy (strip content) = true ->
             In (mkDocument file content) (read_documents w files))).
Proof.
  split.
  - intros file Hext. split; [|apply read_outcome].
    repeat (destruct Hext as [<-|Hext]; [eexists; reflexivity|]).
    destruct Hext.
  - intros files. pose proof (discover_files_below w self stats0) as Hbelow.
    fold files in Hbelow. split; [|split].
    + now rewrite (extraction_spec w stats [] Hbelow).
    + intros file msg Hin E.
      destruct (proj1 (Forall_forall _ _) Hbelow file Hin) as [rel [_ ->]].
      exists rel. split; [reflexivity|]. now apply error_entries_In.
    + intros file content Hin E Ht.
      apply read_documents_In. cbn. auto.
Qed.

End Collecting.

Example extraction_goes_on :
  extraction (H := ascii_case) Examples.empty_docx_then_txt
    (Examples.searcher "x")
    [joinpath Examples.docs [lit "a.docx"]; joinpath Examples.docs [lit "b.txt"]]
    initial_stats []
  = Ret (mkStats 0 1 1 0 [mkError (lit "a.docx") (lit "No text content found")],
         [mkDocument (joinpath Examples.docs [lit "b.txt"]) (lit "hello world")]).
Proof. vm_compute. reflexivity. Qed.

(** ** Exit codes *)

Section ExitCodes.
Context `{CaseMap}.


End ExitCodes.


(** ** Path strings above the search root *)


Lemma occurs_app_r (t s s' : str) : occurs t s -> occurs t (s' ++ s).
Proof.
  intros [a [b ->]]. exists (s' ++ a), b. now rewrite <- !app_assoc.
Qed.

Lemma join_app (l l' : list str) :
  l <> [] -> l' <> [] -> join sep (l ++ l') = join sep l ++ sep ++ join sep l'.
Proof.
  intros Hl Hl'. induction l as [|x l IH]; [tauto|].
  destruct l as [|y l].
  - destruct l' as [|z l']; [tauto|reflexivity].
  - change (join sep ((x :: y :: l) ++ l'))
      with (x ++ sep ++ join sep ((y :: l) ++ l')).
    rewrite IH by discriminate.
    change (join sep (x :: y :: l)) with (x ++ sep ++ join sep (y :: l)).
    now rewrite <- !app_assoc.
Qed.

Lemma path_str_joinpath (root : Path) (rel : list str) :
  parts root <> [] -> rel <> [] ->
  path_str (joinpath root rel) = path_str root ++ sep ++ join sep rel.
Proof.
  intros Hroot Hrel. unfold path_str, joinpath. cbn [anchor parts].
  rewrite (join_app Hroot Hrel).
  destruct (anchor root).
  - now rewrite <- !app_assoc.
  - destruct (parts root) as [|c l] eqn:E; [tauto|].
    destruct ((c :: l) ++ rel) eqn:E'; [discriminate|reflexivity].
Qed.


Section AboveTheRoot.
Context `{CaseMap}.


Lemma sum_points_lower_bound (file : Path) (terms : list str) (pts : list Z)
  (term : str) :
  Forall2 (term_points file) terms pts -> In term terms -> 20 <= sum pts.
Proof.
  induction 1 as [|t p terms pts Hp Hrest IH]; [intros []|].
  change (sum (p :: pts)) with (p + sum pts).
  destruct (sum_points_tens Hrest) as [k [-> Hk]].
  destruct (term_points_range Hp) as [-> | [-> | ->]]; lia.
Qed.





End AboveTheRoot.


(** ** Encrypted PDFs in a run *)

Lemma skipped_line_in_report (w : World) (self : DocumentSearcher)
  (stats : Stats) (results : list Result) (entry : ErrorEntry) :
  In entry (errors stats) ->
  In (skipped_line entry) (report_lines w self stats results).
Proof.
  intros Hin. unfold report_lines.
  apply in_or_app. right. apply in_or_app. right. apply in_or_app. right.
  apply in_or_app. left. unfold skipped_section.
  destruct (errors stats) as [|e l] eqn:E; [destruct Hin|].
  cbn [truthy]. right. apply in_or_app. left. now apply in_map.
Qed.

Lemma merge_path_match_shape (self : DocumentSearcher)
  (content_analyzed_files : list (str * Analysis)) (item : str * PathInfo)
  (r : Result) :
  merge_path_match self content_analyzed_files item = Ret r ->
  file r = Some (FPath (pi_file (snd item)))
  /\ list_mem (lit "path") (get (match_sources r) [lit "content"]) = true.
Proof.
  destruct item as [k info]. unfold merge_path_match.
  destruct (dict_get content_analyzed_files k) as [a|].
  - intros E. injection E as <-. split; reflexivity.
  - destruct (relative_to _ _) as [rel|e]; [|discriminate].
    intros E. injection E as <-. split; reflexivity.
Qed.

Section EncryptedPdf.
Context `{CaseMap}.

Lemma final_results_of_unfold
  (analyze : DocumentSearcher -> list Document -> result (list Analysis))
  (w : World) (self : DocumentSearcher) (files : list Path)
  (stats stats2 : Stats) (final_results : list Result) :
  final_results_of analyze w self files stats = Ret (stats2, final_results) ->
  exists documents all_analyses,
    extraction w self files stats [] = Ret (stats2, documents)
    /\ analysis_stage (analyze self) self documents = Ret all_analyses
    /\ merge self (path_matching self files []) all_analyses
       = Ret final_results.
Proof.
  unfold final_results_of.
  destruct (extraction w self files stats []) as [[st docs]|e] eqn:E1;
    [|discriminate].
  cbn [bind].
  destruct (analysis_stage _ _ _) as [all|e] eqn:E2; [|discriminate].
  cbn [bind].
  destruct (merge _ _ _) as [final|e] eqn:E3; [|discriminate]. cbn [bind].
  intros E. injection E as <- <-. now exists docs, all.
Qed.

Lemma read_encrypted_pdf (w : World) (f : Path) (reader : PdfReader) :
  lower (suffix f) = lit ".pdf" ->
  encrypted_pdf w f reader ->
  read w f
  = reraise_as_ReadError
      (text <-
         reraise_as_ReadError
           (match decrypt reader [] with
            | Ok _ => Ret tt
            | Err _ => Raise (ReadError encrypted_pdf_message)
            end ;;;
            ps <- call (pages reader) ;;
            let text := join [10%N; 10%N] (pdf_pages_loop ps 1 []) in
            if negb (truthy (strip text))
            then Raise (ReadError
                   (lit "No text content found (may be image-only PDF)"))
            else Ret text)
           (fun e => lit "PDF read failed: " ++ exc_str e) ;;
       Ret (truncate text))
      (fun e => name f ++ lit ": " ++ exc_class e ++ lit ": " ++ exc_str e).
Proof.
  intros Hext [Himport [Hopen Henc]]. unfold read. rewrite Hext.
  change (dict_get readers (lit ".pdf")) with (Some _read_pdf). cbv beta iota.
  unfold _read_pdf, with_import. rewrite Himport, Hopen. cbn [call bind].
  now rewrite Henc.
Qed.

(** C6, as amended.  For an encrypted PDF that [pypdf] opens: when
    [decrypt('')] raises, extraction raises the [ReadError]
    ["Encrypted PDF (password protected)"]; when it returns and the pages
    cannot be read, extraction raises ["PDF read failed: e"]; otherwise the
    file is read like any other PDF.  Whenever extraction raises, the run
    has the file in the error list and in the skipped-files section of the
    report, with that message, and not among the documents handed to
    content analysis.  Every matched document is a path match (a query
    term occurs in its path), which the skipped file can be, or an analysis
    the analyst returned for the documents it was given, passed through. *)
Theorem encrypted_pdf_in_run
  (analyze : DocumentSearcher -> list Document -> result (list Analysis))
  (w : World) (self : DocumentSearcher) (stats stats' : Stats)
  (results : list Result) (f : Path) (reader : PdfReader) :
  In f (fst (discover_files w self stats)) ->
  lower (suffix f) = lit ".pdf" ->
  encrypted_pdf w f reader ->
  search_with analyze w self stats = Ret (stats', results) ->
  let files := fst (discover_files w self stats) in
  ((forall e, decrypt reader [] = Err e ->
      read w f = Raise (ReadError encrypted_pdf_message))
   /\ (forall e, decrypt reader [] = Ok tt -> pages reader = Err e ->
         read w f = Raise (ReadError (lit "PDF read failed: " ++ exc_str e)))
   /\ (forall ps, decrypt reader [] = Ok tt -> pages reader = Ok ps ->
         let text := join [10%N; 10%N] (pdf_pages_loop ps 1 []) in
         read w f
         = if negb (truthy (strip text))
           then Raise (ReadError
                  (lit "No text content found (may be image-only PDF)"))
           else Ret (truncate text)))
  /\ (forall msg,
         read w f = Raise (ReadError msg) ->
         exists rel,
           f = joinpath (folder self) rel
           /\ In (mkError (path_str (mkPath false rel)) msg) (errors stats')
           /\ In (skipped_line (mkError (path_str (mkPath false rel)) msg))
                 (report_lines w self stats' results)
           /\ ~ In f (List.map doc_file (read_documents w files)))
  /\ (exists all_analyses,
         analysis_stage (analyze self) self (read_documents w files)
         = Ret all_analyses
         /\ forall r,
              In r results ->
              (exists f' terms score,
                  file r = Some (FPath f')
                  /\ list_mem (lit "path")
                       (get (match_sources r) [lit "content"]) = true
                  /\ _query_matches_path self f' = (true, terms, score))
              \/ (exists a, In a all_analyses /\ r = content_only a))
  /\ (forall r,
         In r results -> file r = Some (FPath f) ->
         list_mem (lit "path") (get (match_sources r) [lit "content"]) = true
         /\ exists terms score,
              _query_matches_path self f = (true, terms, score)).
Proof.
  intros Hin Hext Hpdf Hrun files.
  pose proof (read_encrypted_pdf Hext Hpdf) as Hread.
  pose proof (discover_files_below w self stats) as Hbelow.
  fold files in Hin, Hbelow.
  destruct (proj1 (Forall_forall _ _) Hbelow f Hin) as [rel [_ Ef]].
  unfold search_with in Hrun.
  change (discover_files w self stats)
    with (files, mkStats (len files) (successfully_read stats) (skipped stats)
                         (matched stats) (errors stats)) in Hrun.
  cbv beta iota in Hrun.
  set (stats1 := mkStats (len files) (successfully_read stats) (skipped stats)
                         (matched stats) (errors stats)) in *.
  assert (Hne : truthy files = true) by (destruct files; [destruct Hin|reflexivity]).
  rewrite Hne in Hrun. cbn [negb] in Hrun.
  destruct (final_results_of analyze w self files stats1)
    as [[stats2 final]|e] eqn:Ef'; [|discriminate Hrun].
  cbn [bind] in Hrun. injection Hrun as <- <-.
  destruct (final_results_of_unfold _ _ _ _ _ Ef')
    as [documents [all [Hex [Hstage Hmerge]]]].
  rewrite (extraction_spec w stats1 [] Hbelow) in Hex.
  injection Hex as <- <-. cbn [app] in Hstage.
  assert (Hclass : forall r,
             In r (rank final) ->
             (exists f' terms score,
                 file r = Some (FPath f')
                 /\ list_mem (lit "path")
                      (get (match_sources r) [lit "content"]) = true
                 /\ _query_matches_path self f' = (true, terms, score))
             \/ (exists a, In a all /\ r = content_only a)).
  { intros r Hr. apply rank_spec in Hr as [Hr _].
    destruct (merge_unfold _ _ _ Hmerge) as [from_paths [Hfrom Efinal]].
    rewrite Efinal in Hr. apply in_app_or in Hr as [Hr|Hr].
    - left. destruct (Forall2_In_r _ Hfrom Hr) as [[k info] [Hitem Hm]].
      destruct (merge_path_match_shape _ _ _ Hm) as [Hf Hsrc].
      pose proof (proj1 (Forall_forall _ _)
                    (@path_matching_entries _ self files [] (Forall_nil _))
                    _ Hitem) as [_ Hq].
      cbn [snd] in Hf, Hq. eauto 8.
    - right. apply in_map_iff in Hr as [a [<- Ha]].
      apply filter_In in Ha as [Ha _]. eauto. }
  split; [|split; [|split]].
  - split; [|split].
    + intros e Hd. rewrite Hread, Hd. reflexivity.
    + intros e Hd Hp. rewrite Hread, Hd, Hp. reflexivity.
    + intros ps Hd Hp text. rewrite Hread, Hd, Hp. cbn [call bind].
      fold text. now destruct (truthy (strip text)).
  - intros msg Hmsg. exists rel. split; [exact Ef|].
    assert (Hentry : In (mkError (path_str (mkPath false rel)) msg)
                        (errors stats1 ++ error_entries w self files)).
    { apply in_or_app. right. subst f. now apply error_entries_In. }
    split; [exact Hentry|]. split; [now apply skipped_line_in_report|].
    intros Hmem. apply in_map_iff in Hmem as [d [Ed' Hd]].
    apply read_documents_In in Hd as [_ [Hr _]].
    rewrite Ed', Hmsg in Hr. discriminate.
  - exists all. split; [exact Hstage|exact Hclass].
  - intros r Hr Hfile.
    destruct (Hclass r Hr) as [[f' [terms [score [Hf' [Hsrc Hq]]]]]|[a [_ ->]]].
    + rewrite Hfile in Hf'. injection Hf' as <-. eauto.
    + unfold content_only in Hfile. cbn [file] in Hfile.
      destruct (a_file a); discriminate.
Qed.

End EncryptedPdf.

Lemma encrypted_pdf_in_run_witness :
  read (H := ascii_case) Examples.locked Examples.secret_pdf
  = Raise (ReadError encrypted_pdf_message)
  /\ exists rel,
       Examples.secret_pdf = joinpath Examples.docs rel
       /\ In (mkError (path_str (mkPath false rel)) encrypted_pdf_message)
             [mkError (lit "secret.pdf") encrypted_pdf_message].
Proof.
  pose (self := Examples.searcher "secret").
  assert (Hin : In Examples.secret_pdf
                   (fst (discover_files Examples.locked self initial_stats)))
    by (vm_compute; left; reflexivity).
  assert (Hext : lower (H := ascii_case) (suffix Examples.secret_pdf)
                 = lit ".pdf") by reflexivity.
  assert (Hpdf : encrypted_pdf Examples.locked Examples.secret_pdf
                   Examples.locked_reader)
    by (repeat split; reflexivity).
  destruct (search (H := ascii_case) Examples.locked self initial_stats)
    as [[stats results]|e] eqn:E; vm_compute in E; [|discriminate].
  injection E as <- <-.
  destruct (@encrypted_pdf_in_run ascii_case analyze_with_claude
              Examples.locked self initial_stats _ _ Examples.secret_pdf
              Examples.locked_reader
              Hin Hext Hpdf ltac:(vm_compute; reflexivity))
    as [[Hraise _] [Hskipped _]].
  pose proof (Hraise Examples.wrong_password eq_refl) as Hread.
  split; [exact Hread|].
  destruct (Hskipped _ Hread) as [rel [Ef [Herr _]]].
  exists rel. split; [exact Ef|exact Herr].
Defined.

(** C6, as first stated, fails in four ways.  An encrypted PDF that opens
    with the empty password is read like any other: extraction returns its
    text.  One whose [decrypt('')] returns without unlocking it is skipped
    with the message ["PDF read failed: File has not been decrypted"], not
    an "encrypted" one.  One that cannot be decrypted, named [secret.pdf],
    under the query ["secret"]: it is in the error list, and it is also the
    first matched document of the report, with the path score 40.  And
    beside a readable file, an analyst that answers about [secret.pdf]
    puts it among the matched documents by content, skipped though it was. *)
Lemma encrypted_pdf_read_or_matched :
  (encrypted_pdf Examples.empty_password Examples.secret_pdf
     Examples.owner_locked_reader
   /\ read (H := ascii_case) Examples.empty_password Examples.secret_pdf
      = Ret (lit "quarterly figures"))
  /\ (encrypted_pdf Examples.still_locked Examples.secret_pdf
        Examples.still_locked_reader
      /\ read (H := ascii_case) Examples.still_locked Examples.secret_pdf
         = Raise (ReadError
                    (lit "PDF read failed: File has not been decrypted")))
  /\ (encrypted_pdf Examples.locked Examples.secret_pdf Examples.locked_reader
      /\ exists stats results r,
           search (H := ascii_case) Examples.locked
             (Examples.searcher "secret") initial_stats
           = Ret (stats, results)
           /\ errors stats = [mkError (lit "secret.pdf") encrypted_pdf_message]
           /\ In r results
           /\ file r = Some (FPath Examples.secret_pdf)
           /\ relevance r = Some 40
           /\ In (lit "### 1. secret.pdf" ++ [32; 128269]%N)
                 (matched_section results)
           /\ In (skipped_line
                    (mkError (lit "secret.pdf") encrypted_pdf_message))
                 (report_lines Examples.locked (Examples.searcher "secret")
                    stats results))
  /\ (encrypted_pdf Examples.locked_beside_notes Examples.secret_pdf
        Examples.locked_reader
      /\ exists stats results,
           search_with (H := ascii_case) Examples.naming_secret
             Examples.locked_beside_notes (Examples.searcher "zebra")
             initial_stats
           = Ret (stats, results)
           /\ errors stats = [mkError (lit "secret.pdf") encrypted_pdf_message]
           /\ results = [content_only Examples.analysis_of_secret]
           /\ In (lit "### 1. secret.pdf") (matched_section results)
           /\ In (skipped_line
                    (mkError (lit "secret.pdf") encrypted_pdf_message))
                 (report_lines Examples.locked_beside_notes
                    (Examples.searcher "zebra") stats results)).
Proof.
  split; [|split; [|split]].
  - split; [repeat split; reflexivity|vm_compute; reflexivity].
  - split; [repeat split; reflexivity|vm_compute; reflexivity].
  - split; [repeat split; reflexivity|].
    do 3 eexists. split; [vm_compute; reflexivity|].
    split; [vm_compute; reflexivity|].
    split; [left; reflexivity|].
    split; [reflexivity|]. split; [reflexivity|].
    split; [vm_compute; right; left; reflexivity|].
    apply skipped_line_in_report. left. reflexivity.
  - split; [repeat split; reflexivity|].
    do 2 eexists. split; [vm_compute; reflexivity|].
    split; [reflexivity|]. split; [reflexivity|].
    split; [vm_compute; right; left; reflexivity|].
    apply skipped_line_in_report. left. reflexivity.
Qed.

(** ** Further concrete runs of the theorems above *)

Lemma path_score_per_term_witness :
  _query_matches_path (H := ascii_case) (Examples.searcher "Budget")
    Examples.budget_txt
  = (true, [lit "budget"], 40).
Proof.
  apply (proj1 (proj2 (proj2 (@path_score_per_term ascii_case
                                (Examples.searcher "Budget")
                                Examples.budget_txt)))).
  - vm_compute. reflexivity.
  - exists [], (lit ".txt"). reflexivity.
Defined.

Lemma per_file_errors_collected_witness :
  exists rel,
    joinpath Examples.docs [lit "a.docx"] = joinpath Examples.docs rel
    /\ In (mkError (path_str (mkPath false rel)) (lit "No text content found"))
          (error_entries (H := ascii_case) Examples.empty_docx_then_txt
             (Examples.searcher "x")
             (fst (discover_files Examples.empty_docx_then_txt
                     (Examples.searcher "x") initial_stats))).
Proof.
  apply (proj1 (proj2 (proj2 (@per_file_errors_collected ascii_case
                                Examples.empty_docx_then_txt
                                (Examples.searcher "x")
                                initial_stats initial_stats)))).
  - vm_compute. left. reflexivity.
  - vm_compute. reflexivity.
Defined.


(* ================================================================== *)
(** * Further properties of the two scripts *)
(* ================================================================== *)

(** ** Blank strings and [strip] *)

Lemma lstrip_keeps (s : str) :
  hd_error s = None \/ (exists c, hd_error s = Some c /\ isspace c = false) ->
  lstrip s = s.
Proof.
  destruct s as [|c s]; [reflexivity|]. cbn [hd_error lstrip].
  intros [E|[c' [E Hc]]]; [discriminate|]. injection E as <-. now rewrite Hc.
Qed.

Lemma lstrip_nil (s : str) : lstrip s = [] <-> forallb isspace s = true.
Proof.
  induction s as [|c s IH]; cbn [lstrip forallb]; [tauto|].
  destruct (isspace c); cbn [andb]; [exact IH|]. split; discriminate.
Qed.

Lemma lstrip_suffix (s : str) : exists a, s = a ++ lstrip s /\ forallb isspace a = true.
Proof.
  induction s as [|c s [a [E Ha]]]; [now exists []|]. cbn [lstrip].
  destruct (isspace c) eqn:Ec.
  - exists (c :: a). cbn [forallb app]. rewrite Ec, Ha. split; [now f_equal|reflexivity].
  - now exists [].
Qed.

(** [s.strip()] is empty exactly when [s] is all whitespace. *)
Lemma strip_nil (s : str) : strip s = [] <-> forallb isspace s = true.
Proof.
  unfold strip, rstrip.
  destruct (lstrip_suffix s) as [a [E Ha]].
  assert (Hrev : forall l : str, forallb isspace (rev l) = forallb isspace l).
  { intros l. induction l as [|x l IH]; [reflexivity|]. cbn [rev forallb].
    rewrite forallb_app, IH. cbn. now rewrite andb_true_r, andb_comm. }
  split.
  - intros H0. apply (f_equal (@rev char)) in H0. rewrite rev_involutive in H0.
    cbn in H0. apply lstrip_nil in H0. rewrite Hrev in H0.
    rewrite E, forallb_app, Ha, H0. reflexivity.
  - intros Hs. rewrite E, forallb_app, Ha in Hs. cbn [andb] in Hs.
    rewrite <- Hrev in Hs. apply lstrip_nil in Hs. now rewrite Hs.
Qed.

Lemma strip_truthy (s : str) :
  truthy (strip s) = negb (forallb isspace s).
Proof.
  destruct (forallb isspace s) eqn:E.
  - apply strip_nil in E. now rewrite E.
  - destruct (strip s) eqn:Es; [|reflexivity].
    apply strip_nil in Es. congruence.
Qed.

(** A string with no whitespace at either end is its own [strip]. *)
Lemma strip_clean (s : str) : forallb (fun c => negb (isspace c)) s = true -> strip s = s.
Proof.
  intros Hs.
  assert (Hl : forall t : str, forallb (fun c => negb (isspace c)) t = true ->
                               lstrip t = t).
  { intros [|c t]; [reflexivity|]. cbn [forallb lstrip].
    intros Ht. apply andb_prop in Ht as [Hc _].
    now destruct (isspace c). }
  unfold strip, rstrip. rewrite (Hl s Hs), Hl, rev_involutive; [reflexivity|].
  apply forallb_forall. intros c Hc. apply in_rev in Hc.
  exact (proj1 (forallb_forall _ _) Hs c Hc).
Qed.

(** ** Splitting the query *)

Lemma re_split_pieces (sep : char -> bool) (s : str) :
  Forall (fun piece => forallb (fun c => negb (sep c)) piece = true)
         (re_split sep s).
Proof.
  induction s as [|c s IH]; cbn [re_split]; [repeat constructor|].
  destruct (sep c) eqn:Ec; [constructor; [reflexivity|exact IH]|].
  destruct (re_split sep s) as [|w ws]; [repeat constructor; cbn; now rewrite Ec|].
  inversion IH as [|? ? Hw Hws]; subst. constructor; [|exact Hws].
  cbn [forallb]. now rewrite Ec, Hw.
Qed.

Lemma re_split_all_separators (sep : char -> bool) (s : str) :
  forallb sep s = true -> Forall (fun piece => piece = []) (re_split sep s).
Proof.
  induction s as [|c s IH]; cbn [re_split forallb]; [repeat constructor|].
  intros Hs. apply andb_prop in Hs as [Hc Hs]. rewrite Hc.
  constructor; [reflexivity|now apply IH].
Qed.

Lemma query_sep_covers_space (c : char) : is_query_sep c = false -> isspace c = false.
Proof. unfold is_query_sep. destruct (isspace c); [discriminate|reflexivity]. Qed.

Section QueryTerms.
Context `{CaseMap}.

Lemma query_terms_lower (q : str) :
  query_terms q = List.map lower (filter truthy (re_split is_query_sep q)).
Proof.
  unfold query_terms.
  pose proof (re_split_pieces is_query_sep q) as Hp.
  induction Hp as [|piece l Hpiece _ IH]; [reflexivity|].
  assert (Es : strip piece = piece).
  { apply strip_clean. apply forallb_forall. intros c Hc.
    pose proof (proj1 (forallb_forall _ _) Hpiece c Hc) as Hn.
    apply negb_true_iff in Hn. apply query_sep_covers_space in Hn.
    now rewrite Hn. }
  cbn [filter]. rewrite Es. destruct (truthy piece); cbn [List.map].
  - rewrite Es. now f_equal.
  - exact IH.
Qed.

(** X1. The query is cut at every whitespace character, comma, semicolon
    and CJK separator; the terms are the non-empty pieces, lowercased, in
    order (the [strip] calls change nothing, no piece holding whitespace).
    A query made of separators only, the empty query included, has no term
    and matches no file. *)
Theorem query_terms_are_lowered_pieces (q : str) :
  query_terms q = List.map lower (filter truthy (re_split is_query_sep q))
  /\ Forall (fun piece => forallb (fun c => negb (is_query_sep c)) piece = true)
            (re_split is_query_sep q)
  /\ (forallb is_query_sep q = true ->
      query_terms q = []
      /\ forall self file,
           query self = q -> _query_matches_path self file = (false, [], 0)).
Proof.
  split; [apply query_terms_lower|]. split; [apply re_split_pieces|].
  intros Hq.
  assert (E : query_terms q = []).
  { rewrite query_terms_lower.
    pose proof (re_split_all_separators is_query_sep q Hq) as Hp.
    induction Hp as [|piece l -> _ IH]; [reflexivity|exact IH]. }
  split; [exact E|]. intros self file <-.
  unfold _query_matches_path. now rewrite E.
Qed.

(** X2. What [_query_matches_path] returns: the flag is true exactly when
    some query term occurs in the lowercased path string; the terms returned
    are query terms that occur there; without a match the score is 0, with
    one it is a multiple of 10 from 20 to 100. *)
Theorem path_match_result_range (self : DocumentSearcher) (file : Path)
  (is_match : bool) (terms : list str) (score : Z) :
  _query_matches_path self file = (is_match, terms, score) ->
  (is_match = true
   <-> exists term, In term (query_terms (query self))
                    /\ occurs term (lower (path_str file)))
  /\ Forall (fun term => In term (query_terms (query self))
                         /\ occurs term (lower (path_str file))) terms
  /\ (is_match = false -> terms = [] /\ score = 0)
  /\ (is_match = true -> terms <> [] /\ 20 <= score <= 100)
  /\ exists k, score = 10 * k.
Proof.
  destruct (query_matches_path_points self file) as [pts [Hpts E]].
  rewrite E. intros E'. injection E' as <- <- <-.
  assert (Hin : forall term, In term (matched_terms_of self file)
                  <-> In term (query_terms (query self))
                      /\ occurs term (lower (path_str file))).
  { intros term. unfold matched_terms_of. rewrite filter_In, str_in_spec.
    reflexivity. }
  destruct (sum_points_tens Hpts) as [k [Ek Hk]].
  split; [|split; [|split; [|split]]].
  - split.
    + destruct (matched_terms_of self file) as [|t l] eqn:Em; [discriminate|].
      intros _. exists t. apply Hin. now left.
    + intros [term Ht]. apply Hin in Ht.
      destruct (matched_terms_of self file); [destruct Ht|reflexivity].
  - apply Forall_forall. intros term Ht. now apply Hin.
  - destruct (matched_terms_of self file) as [|t l] eqn:Em; [|discriminate].
    intros _. inversion Hpts; subst. split; reflexivity.
  - destruct (matched_terms_of self file) as [|t l] eqn:Em; [discriminate|].
    intros _. split; [discriminate|].
    pose proof (@sum_points_lower_bound _ _ _ _ t Hpts (or_introl eq_refl)).
    lia.
  - exists (Z.min k 10). lia.
Qed.

End QueryTerms.

Lemma path_match_result_range_witness :
  20 <= 50 <= 100.
Proof.
  destruct (@path_match_result_range ascii_case (Examples.searcher "Notes, s/n")
              Examples.notes_x true [lit "notes"; lit "s/n"] 50
              ltac:(vm_compute; reflexivity)) as [_ [_ [_ [Hr _]]]].
  exact (proj2 (Hr eq_refl)).
Defined.

Lemma query_terms_are_lowered_pieces_witness :
  query_terms (H := ascii_case) (lit " ,; ") = [].
Proof.
  exact (proj1 (proj2 (proj2 (@query_terms_are_lowered_pieces ascii_case
                                (lit " ,; "))) eq_refl)).
Defined.

(** ** The text reader: the chain of encodings *)

Lemma read_txt_loop_skip (w : World) (file : Path) (pre rest : list str) :
  Forall (undecodable w file) pre ->
  read_txt_loop w file (pre ++ rest) = read_txt_loop w file rest.
Proof.
  induction 1 as [|enc pre [e [E He]] _ IH]; [reflexivity|].
  cbn [app read_txt_loop]. now rewrite E, He.
Qed.

Lemma read_txt_loop_outcome (w : World) (file : Path) (encodings : list str) :
  match read_txt_loop w file encodings with
  | Ret text =>
      exists pre enc post,
        encodings = pre ++ enc :: post
        /\ Forall (undecodable w file) pre
        /\ read_text w file enc = Ok text
  | Raise (ReadError msg) =>
      msg = lit "Could not decode file with any encoding"
      /\ Forall (undecodable w file) encodings
  | Raise (Exception e) =>
      exists pre enc post,
        encodings = pre ++ enc :: post
        /\ Forall (undecodable w file) pre
        /\ read_text w file enc = Err e
        /\ isinstance e (lit "UnicodeDecodeError")
           || isinstance e (lit "LookupError") = false
  end.
Proof.
  induction encodings as [|enc rest IH]; cbn [read_txt_loop].
  - split; [reflexivity|constructor].
  - destruct (read_text w file enc) as [text|e] eqn:E.
    + exists [], enc, rest. repeat split; [constructor|exact E].
    + destruct (isinstance e (lit "UnicodeDecodeError")
                || isinstance e (lit "LookupError")) eqn:He.
      * assert (Hu : undecodable w file enc) by (exists e; auto).
        destruct (read_txt_loop w file rest) as [text|[msg|e']].
        -- destruct IH as [pre [enc' [post [-> [Hpre Hok]]]]].
           exists (enc :: pre), enc', post. repeat split; auto.
        -- destruct IH as [-> Hall]. split; [reflexivity|auto].
        -- destruct IH as [pre [enc' [post [-> [Hpre [Herr Hc]]]]]].
           exists (enc :: pre), enc', post. repeat split; auto.
      * exists [], enc, rest. repeat split; [constructor|exact E|exact He].
Qed.

(** X3. [_read_txt] tries utf-8, gbk, gb2312 and latin-1 in this order and
    returns the text of the first encoding that decodes the file, going on
    only after a [UnicodeDecodeError] or a [LookupError]; it raises
    "Could not decode file with any encoding" exactly when all four fail
    that way; any other exception of a read (a missing file, a permission
    error) leaves the loop at once, untried encodings notwithstanding. *)
Theorem read_txt_first_decodable (w : World) (file : Path) :
  let encodings := [lit "utf-8"; lit "gbk"; lit "gb2312"; lit "latin-1"] in
  (forall text,
      _read_txt w file = Ret text
      <-> exists pre enc post,
            encodings = pre ++ enc :: post
            /\ Forall (undecodable w file) pre
            /\ read_text w file enc = Ok text)
  /\ (forall msg,
        _read_txt w file = Raise (ReadError msg)
        <-> msg = lit "Could not decode file with any encoding"
            /\ Forall (undecodable w file) encodings)
  /\ (forall e,
        _read_txt w file = Raise (Exception e)
        <-> exists pre enc post,
              encodings = pre ++ enc :: post
              /\ Forall (undecodable w file) pre
              /\ read_text w file enc = Err e
              /\ isinstance e (lit "UnicodeDecodeError")
                 || isinstance e (lit "LookupError") = false).
Proof.
  intros encodings. unfold _read_txt. fold encodings.
  pose proof (read_txt_loop_outcome w file encodings) as Hout.
  split; [|split].
  - intros text. split.
    + intros E. now rewrite E in Hout.
    + intros [pre [enc [post [-> [Hpre Hok]]]]].
      rewrite read_txt_loop_skip by exact Hpre.
      cbn [read_txt_loop]. now rewrite Hok.
  - intros msg. split.
    + intros E. now rewrite E in Hout.
    + intros [-> Hall].
      rewrite <- (app_nil_r encodings), read_txt_loop_skip by exact Hall.
      reflexivity.
  - intros e. split.
    + intros E. now rewrite E in Hout.
    + intros [pre [enc [post [-> [Hpre [Herr He]]]]]].
      rewrite read_txt_loop_skip by exact Hpre.
      cbn [read_txt_loop]. now rewrite Herr, He.
Qed.

Lemma read_txt_first_decodable_witness :
  _read_txt Examples.two_files Examples.budget_txt = Ret (lit "hello world").
Proof.
  apply (proj1 (@read_txt_first_decodable Examples.two_files
                  Examples.budget_txt)).
  exists [], (lit "utf-8"), [lit "gbk"; lit "gb2312"; lit "latin-1"].
  repeat split. constructor.
Defined.

(** ** Non-blank texts *)

Lemma nonblank_char (s : str) (c : char) :
  In c s -> isspace c = false -> nonblank s.
Proof.
  intros Hin Hc. unfold nonblank. rewrite strip_truthy.
  destruct (forallb isspace s) eqn:E; [|reflexivity].
  rewrite (proj1 (forallb_forall _ _) E c Hin) in Hc. discriminate.
Qed.

Lemma nonblank_occurs (t s : str) : occurs t s -> nonblank t -> nonblank s.
Proof.
  intros [a [b ->]] Ht. unfold nonblank in *. rewrite strip_truthy in *.
  rewrite !forallb_app. destruct (forallb isspace t); [discriminate|].
  now rewrite andb_false_r.
Qed.

Lemma In_join_occurs (sep : str) (l : list str) (x : str) :
  In x l -> occurs x (join sep l).
Proof.
  induction l as [|y l IH]; [intros []|].
  intros [->|Hin].
  - destruct l as [|z l]; [exists [], []; cbn; now rewrite app_nil_r|].
    exists [], (sep ++ join sep (z :: l)). reflexivity.
  - destruct (IH Hin) as [a [b E]].
    destruct l as [|z l]; [destruct Hin|].
    exists (y ++ sep ++ a), b. cbn [join] in *. rewrite E.
    now rewrite <- !app_assoc.
Qed.

Lemma truncate_nonblank (text : str) : nonblank text -> nonblank (truncate text).
Proof.
  intros Ht. unfold truncate. destruct (len text >? MAX_CHARS); [|exact Ht].
  apply nonblank_occurs with (t := truncation_marker).
  - exists (slice_to text MAX_CHARS), []. now rewrite app_nil_r.
  - reflexivity.
Qed.

(** ** The PDF reader: pages that fail *)

Lemma pdf_pages_loop_acc (ps : list PdfPage) (page_num : Z) (acc : list str) :
  pdf_pages_loop ps page_num acc = acc ++ pdf_pages_loop ps page_num [].
Proof.
  revert page_num acc. induction ps as [|page ps IH]; intros page_num acc.
  - cbn. now rewrite app_nil_r.
  - cbn [pdf_pages_loop]. rewrite IH. symmetry. rewrite IH. symmetry.
    destruct (extract_text page) as [t|e];
      [destruct (truthy t && truthy (strip t))|];
      cbn [app]; now rewrite ?app_nil_r, <- ?app_assoc.
Qed.

Lemma pdf_pages_loop_error (ps : list PdfPage) (page_num : Z) (acc : list str)
  (k : nat) (page : PdfPage) (e : pyexc) :
  nth_error ps k = Some page ->
  extract_text page = Err e ->
  In (lit "[Page " ++ str_of_int (page_num + Z.of_nat k) ++ lit " error: "
      ++ exc_str e ++ lit "]")
     (pdf_pages_loop ps page_num acc).
Proof.
  revert page_num acc k. induction ps as [|p ps IH]; intros page_num acc k.
  - now destruct k.
  - destruct k as [|k]; cbn [nth_error pdf_pages_loop].
    + intros E He. injection E as ->. rewrite He, pdf_pages_loop_acc.
      rewrite Z.add_0_r. apply in_or_app. left. apply in_or_app. right.
      now left.
    + intros E He. replace (page_num + Z.of_nat (S k))
        with (page_num + 1 + Z.of_nat k) by lia.
      now apply IH.
Qed.

Lemma pdf_pages_loop_blank (ps : list PdfPage) (page_num : Z) :
  Forall (fun page => exists t, extract_text page = Ok t /\ ~ nonblank t) ps ->
  pdf_pages_loop ps page_num [] = [].
Proof.
  intros Hps. revert page_num.
  induction Hps as [|page ps [t [E Ht]] _ IH]; intros page_num; [reflexivity|].
  cbn [pdf_pages_loop]. rewrite E. unfold nonblank in Ht.
  destruct (truthy (strip t)); [now destruct Ht|].
  rewrite andb_false_r. apply IH.
Qed.

(** X4. A page of a PDF that fails to extract does not fail the file: with
    the document opened (and decrypted, if encrypted), when page number
    [k + 1] raises [e], [_read_pdf] returns a text, and that text holds the
    inline note "[Page k+1 error: e]" in place of the page.  When instead
    every page extracts to a blank text, it raises
    "No text content found (may be image-only PDF)". *)
Theorem pdf_page_error_is_inline (w : World) (file : Path) (reader : PdfReader)
  (ps : list PdfPage) :
  import_pypdf w = Ok tt ->
  open_pdf w (path_str file) = Ok reader ->
  is_encrypted reader = false \/ decrypt reader [] = Ok tt ->
  pages reader = Ok ps ->
  (forall k page e,
      nth_error ps k = Some page -> extract_text page = Err e ->
      exists text,
        _read_pdf w file = Ret text
        /\ occurs (lit "[Page " ++ str_of_int (Z.of_nat k + 1) ++ lit " error: "
                   ++ exc_str e ++ lit "]") text)
  /\ (Forall (fun page => exists t, extract_text page = Ok t /\ ~ nonblank t) ps ->
      _read_pdf w file
      = Raise (ReadError (lit "No text content found (may be image-only PDF)"))).
Proof.
  intros Himport Hopen Hdec Hpages.
  assert (E : _read_pdf w file
              = let text := join [10%N; 10%N] (pdf_pages_loop ps 1 []) in
                if negb (truthy (strip text))
                then Raise (ReadError
                       (lit "No text content found (may be image-only PDF)"))
                else Ret text).
  { unfold _read_pdf, with_import. rewrite Himport, Hopen. cbn [call bind].
    assert (Ed : (if is_encrypted reader
                  then match decrypt reader [] with
                       | Ok _ => Ret tt
                       | Err _ => Raise (ReadError encrypted_pdf_message)
                       end
                  else Ret tt) = Ret tt).
    { destruct Hdec as [-> | ->]; [reflexivity|now destruct (is_encrypted _)]. }
    rewrite Ed, Hpages. cbn [call bind reraise_as_ReadError].
    now destruct (negb _). }
  split.
  - intros k page e Hk He.
    pose proof (@pdf_pages_loop_error ps 1 [] k page e Hk He) as Hin.
    rewrite (Z.add_comm 1) in Hin.
    apply (In_join_occurs [10%N; 10%N]) in Hin.
    assert (Hnb : nonblank (join [10%N; 10%N] (pdf_pages_loop ps 1 []))).
    { apply (nonblank_occurs Hin).
      apply nonblank_char with (c := 91%N); [now left|reflexivity]. }
    eexists. split; [|exact Hin]. rewrite E. cbn zeta.
    unfold nonblank in Hnb. now rewrite Hnb.
  - intros Hblank. rewrite E, (pdf_pages_loop_blank 1 Hblank). reflexivity.
Qed.

Lemma pdf_page_error_is_inline_witness :
  exists text,
    _read_pdf Examples.damaged Examples.report_pdf = Ret text
    /\ occurs (lit "[Page 2 error: Invalid Elementary Object]") text.
Proof.
  exact (proj1 (@pdf_page_error_is_inline Examples.damaged Examples.report_pdf
                  Examples.damaged_reader _ eq_refl eq_refl
                  (or_introl eq_refl) eq_refl)
               1%nat _ Examples.broken_page eq_refl eq_refl).
Defined.

(** ** Readers that never return a blank text *)

Lemma with_import_Ret {A} (imported : lib unit) (msg : str) (k : result A) (a : A) :
  with_import imported msg k = Ret a -> k = Ret a.
Proof.
  unfold with_import. destruct imported as [u|e]; [auto|].
  now destruct (isinstance e _).
Qed.

Lemma reraise_Ret {A} (body : result A) (msg : pyexc -> str) (a : A) :
  reraise_as_ReadError body msg = Ret a -> body = Ret a.
Proof. now destruct body as [x|[m|e]]. Qed.

Lemma bind_Ret {A B} (m : result A) (k : A -> result B) (b : B) :
  bind m k = Ret b -> exists a, m = Ret a /\ k a = Ret b.
Proof. destruct m as [a|e]; [eauto|discriminate]. Qed.

Lemma guarded_Ret (text : str) (e : exn) (r : str) :
  (if negb (truthy (strip text)) then Raise e else Ret text) = Ret r ->
  r = text /\ nonblank text.
Proof.
  unfold nonblank. destruct (truthy (strip text)); cbn; [|discriminate].
  intros E. now injection E as <-.
Qed.

Lemma read_pdf_nonblank (w : World) (file : Path) (text : str) :
  _read_pdf w file = Ret text -> nonblank text.
Proof.
  unfold _read_pdf. intros E.
  apply with_import_Ret, reraise_Ret in E.
  apply bind_Ret in E as [reader [_ E]].
  apply bind_Ret in E as [_ [_ E]].
  apply bind_Ret in E as [ps [_ E]].
  cbn zeta in E. now apply guarded_Ret in E as [-> Ht].
Qed.

Lemma read_docx_nonblank (w : World) (file : Path) (text : str) :
  _read_docx w file = Ret text -> nonblank text.
Proof.
  unfold _read_docx. intros E. apply reraise_Ret in E.
  apply bind_Ret in E as [docx [_ E]].
  apply bind_Ret in E as [xml [_ E]].
  apply bind_Ret in E as [tree [_ E]].
  cbn zeta in E. now apply guarded_Ret in E as [-> Ht].
Qed.

(** A list of sheet texts, each opening with "Sheet: ". *)
Lemma sheets_join_nonblank (sheets_text : list str) :
  Forall (fun t => exists rest, t = lit "Sheet: " ++ rest) sheets_text ->
  truthy sheets_text = true ->
  nonblank (join [10%N; 10%N] sheets_text).
Proof.
  intros Hall Ht. destruct sheets_text as [|t l]; [discriminate|].
  inversion Hall as [|? ? [rest ->] _]; subst.
  apply nonblank_occurs with (t := lit "Sheet: " ++ rest).
  - apply In_join_occurs. now left.
  - apply nonblank_char with (c := 83%N); [now left|reflexivity].
Qed.

Lemma read_xlsx_nonblank (w : World) (file : Path) (text : str) :
  _read_xlsx w file = Ret text -> nonblank text.
Proof.
  unfold _read_xlsx. intros E.
  apply with_import_Ret, reraise_Ret in E.
  apply bind_Ret in E as [wb [_ E]]. cbn zeta in E.
  apply bind_Ret in E as [_ [_ E]].
  destruct (truthy (flat_map xlsx_sheet_text (xlsx_sheets wb))) eqn:Ht;
    [|discriminate].
  cbn in E. injection E as <-. apply sheets_join_nonblank; [|exact Ht].
  apply Forall_forall. intros t Hin. apply in_flat_map in Hin as [sh [_ Hin]].
  unfold xlsx_sheet_text in Hin.
  destruct (truthy (flat_map xlsx_row_text _)); [|destruct Hin].
  destruct Hin as [<-|[]]. eauto.
Qed.

Lemma xls_sheets_loop_titles (sheets : list (lib XlsSheet))
  (acc sheets_text : list str) :
  Forall (fun t => exists rest, t = lit "Sheet: " ++ rest) acc ->
  xls_sheets_loop sheets acc = Ret sheets_text ->
  Forall (fun t => exists rest, t = lit "Sheet: " ++ rest) sheets_text.
Proof.
  revert acc. induction sheets as [|by_index sheets IH]; intros acc Hacc.
  - cbn. intros E. now injection E as <-.
  - cbn [xls_sheets_loop]. intros E.
    apply bind_Ret in E as [sheet [_ E]]. cbn zeta in E.
    apply bind_Ret in E as [_ [_ E]].
    apply IH in E; [exact E|].
    destruct (truthy _); [|exact Hacc].
    apply Forall_app. split; [exact Hacc|]. constructor; [eauto|constructor].
Qed.

Lemma read_xls_nonblank (w : World) (file : Path) (text : str) :
  _read_xls w file = Ret text -> nonblank text.
Proof.
  unfold _read_xls. intros E.
  apply with_import_Ret, reraise_Ret in E.
  apply bind_Ret in E as [workbook [_ E]].
  apply bind_Ret in E as [sheets_text [Hloop E]].
  destruct (truthy sheets_text) eqn:Ht; [|discriminate].
  cbn in E. injection E as <-. apply sheets_join_nonblank; [|exact Ht].
  exact (xls_sheets_loop_titles _ (Forall_nil _) Hloop).
Qed.

Lemma ocr_failed_marker_nonblank (e : pyexc) : nonblank (ocr_failed_marker e).
Proof. apply nonblank_char with (c := 91%N); [now left|reflexivity]. Qed.

Lemma read_image_nonblank (w : World) (file : Path) (text : str) :
  _read_image w file = Ret text -> nonblank text.
Proof.
  unfold _read_image. intros E. apply with_import_Ret in E.
  match type of E with
  | match ?body with _ => _ end = _ => destruct body as [t|[m|e]] eqn:Eb
  end; try discriminate.
  - injection E as <-.
    apply bind_Ret in Eb as [image [_ Eb]].
    apply bind_Ret in Eb as [t' [_ Eb]].
    unfold nonblank. destruct (truthy t'); [|discriminate].
    destruct (truthy (strip t')) eqn:Es; [|discriminate].
    cbn in Eb. now injection Eb as <-.
  - injection E as <-. apply ocr_failed_marker_nonblank.
Qed.

Section NeverBlank.
Context `{CaseMap}.

(** X5. The text [read] returns for a [.pdf], [.docx], [.xlsx], [.xls],
    [.jpg], [.jpeg] or [.png] file is never blank: each of these readers
    raises [ReadError] rather than return a text without a visible character
    (and truncation keeps a visible character).  So the search never drops
    such a file silently: it is read into a document or reported as an
    error. *)
Theorem read_never_blank (w : World) (file : Path) (text : str) :
  In (lower (suffix file))
     [lit ".pdf"; lit ".docx"; lit ".xlsx"; lit ".xls";
      lit ".jpg"; lit ".jpeg"; lit ".png"] ->
  read w file = Ret text ->
  nonblank text
  /\ forall (self : DocumentSearcher) (stats : Stats) (documents : list Document),
       extraction w self [file] stats documents
       = Ret (mkStats (total_found stats) (successfully_read stats + 1)
                      (skipped stats) (matched stats) (errors stats),
              documents ++ [mkDocument file text]).
Proof.
  intros Hext E.
  assert (Hnb : nonblank text).
  { destruct (read_Ret _ _ E) as [reader [raw [Hd [Hr ->]]]].
    apply truncate_nonblank.
    repeat (destruct Hext as [Hext|Hext];
            [rewrite <- Hext in Hd; injection Hd as <-;
             eauto using read_pdf_nonblank, read_docx_nonblank,
               read_xlsx_nonblank, read_xls_nonblank, read_image_nonblank|]).
    destruct Hext. }
  split; [exact Hnb|]. intros self stats documents.
  cbn [extraction]. unfold extract_content. rewrite E. cbn [bind andb].
  unfold nonblank in Hnb. now rewrite Hnb.
Qed.

End NeverBlank.

Lemma read_never_blank_witness :
  nonblank (lit "[OCR failed: tesseract is not installed or it's not in your PATH]").
Proof.
  exact (proj1 (@read_never_blank ascii_case Examples.broken_ocr
                  Examples.scan_png _
                  ltac:(right; right; right; right; right; right; left;
                        reflexivity)
                  eq_refl)).
Defined.

(** ** The legacy Word reader: the chain of converters *)

Lemma doc_tools_loop_unavailable (w : World) (file : Path) (tools : list str)
  (next : result str) :
  (forall argv, exists e, run w argv = Err e /\ tool_unavailable e = true) ->
  doc_tools_loop w file tools next = next.
Proof.
  intros Hrun. induction tools as [|tool rest IH]; [reflexivity|].
  cbn [doc_tools_loop]. destruct (Hrun [tool; path_str file]) as [e [-> ->]].
  exact IH.
Qed.

Lemma doc_libreoffice_loop_unavailable (w : World) (file : Path)
  (cmds : list str) :
  (forall argv, exists e, run w argv = Err e /\ tool_unavailable e = true) ->
  doc_libreoffice_loop w file cmds = Raise (ReadError doc_unreadable_message).
Proof.
  intros Hrun. induction cmds as [|cmd rest IH]; [reflexivity|].
  cbn [doc_libreoffice_loop]. unfold libreoffice_convert.
  destruct (Hrun [cmd; lit "--headless"; lit "--convert-to"; lit "txt:Text";
                  lit "--outdir"; path_str (parent file); path_str file])
    as [e [-> He]].
  cbn [call bind]. rewrite He. exact IH.
Qed.

Section LegacyDoc.
Context `{CaseMap}.

(** X6. When no converter can be run (every external program is missing
    or times out, and on Windows the Word automation fails), [_read_doc]
    has gone through antiword, catdoc, libreoffice and soffice and raises
    the [ReadError] that lists the three ways out; [read] passes it on
    unchanged for a [.doc] file. *)
Theorem doc_without_converter (w : World) (file : Path) :
  (platform_win32 w = true -> exists e, word_automation w file = Err e) ->
  (forall argv, exists e, run w argv = Err e /\ tool_unavailable e = true) ->
  _read_doc w file = Raise (ReadError doc_unreadable_message)
  /\ (lower (suffix file) = lit ".doc" ->
      read w file = Raise (ReadError doc_unreadable_message)).
Proof.
  intros Hword Hrun.
  assert (E : _read_doc w file = Raise (ReadError doc_unreadable_message)).
  { unfold _read_doc. destruct (platform_win32 w); cbn [negb].
    - destruct (Hword eq_refl) as [e ->].
      now apply doc_libreoffice_loop_unavailable.
    - rewrite doc_tools_loop_unavailable by exact Hrun.
      now apply doc_libreoffice_loop_unavailable. }
  split; [exact E|]. intros Hext. unfold read. rewrite Hext.
  change (dict_get readers (lit ".doc")) with (Some _read_doc).
  cbv beta iota. now rewrite E.
Qed.

(** X7. The chain of converters goes on only after a missing program or
    a timeout.  Off Windows, when running antiword raises anything else
    (a [PermissionError], say), [_read_doc] lets it through and neither
    catdoc nor LibreOffice is tried, whatever they would have given; [read]
    reports it as [ReadError] "name: Class: message". *)
Theorem doc_tool_fault_ends_chain (w : World) (file : Path) (e : pyexc) :
  platform_win32 w = false ->
  run w [lit "antiword"; path_str file] = Err e ->
  tool_unavailable e = false ->
  _read_doc w file = Raise (Exception e)
  /\ (lower (suffix file) = lit ".doc" ->
      read w file
      = Raise (ReadError (name file ++ lit ": " ++ exc_class e ++ lit ": "
                          ++ exc_str e))).
Proof.
  intros Hplat Hrun He.
  assert (E : _read_doc w file = Raise (Exception e)).
  { unfold _read_doc. rewrite Hplat. cbn [negb doc_tools_loop].
    now rewrite Hrun, He. }
  split; [exact E|]. intros Hext. unfold read. rewrite Hext.
  change (dict_get readers (lit ".doc")) with (Some _read_doc).
  cbv beta iota. now rewrite E.
Qed.

End LegacyDoc.

Lemma doc_without_converter_witness :
  read (H := ascii_case) Examples.two_files Examples.old_doc
  = Raise (ReadError doc_unreadable_message).
Proof.
  apply (@doc_without_converter ascii_case Examples.two_files Examples.old_doc).
  - discriminate.
  - intros argv. exists Examples.os_error. split; reflexivity.
  - reflexivity.
Defined.

Lemma doc_tool_fault_ends_chain_witness :
  read (H := ascii_case) Examples.antiword_forbidden Examples.old_doc
  = Raise (ReadError
      (lit "old.doc: PermissionError: [Errno 13] Permission denied: 'antiword'")).
Proof.
  apply (@doc_tool_fault_ends_chain ascii_case Examples.antiword_forbidden
           Examples.old_doc Examples.not_permitted);
    reflexivity.
Defined.

(** ** The image reader *)

(** X8. With the OCR modules importable, [_read_image] raises nothing but
    the [ReadError] "No text could be extracted from image" (when the OCR
    result is empty or blank): it returns a text that is not blank, the OCR
    result or the inline "[OCR failed: ...]" note.  When the first OCR call
    fails with a [TesseractError], the result of the English-only call
    stands in for it. *)
Theorem read_image_outcome (w : World) (file : Path) :
  import_ocr w = Ok tt ->
  ((exists text, _read_image w file = Ret text /\ nonblank text)
   \/ _read_image w file
      = Raise (ReadError (lit "No text could be extracted from image")))
  /\ (forall image e text,
        image_open w file = Ok image ->
        ocr w image (lit "chi_sim+eng") = Err e ->
        isinstance e (lit "TesseractError") = true ->
        ocr w image (lit "eng") = Ok text ->
        _read_image w file
        = if truthy text && truthy (strip text) then Ret text
          else Raise (ReadError (lit "No text could be extracted from image"))).
Proof.
  intros Himport. split.
  - destruct (_read_image w file) as [text|ex] eqn:E.
    + left. exists text. split; [reflexivity|]. now apply read_image_nonblank in E.
    + right. revert E. unfold _read_image, with_import. rewrite Himport.
      destruct (image_open w file) as [image|e]; cbn [call bind];
        [|discriminate].
      destruct (ocr w image (lit "chi_sim+eng")) as [t|e].
      * cbn [bind]. destruct (truthy t); cbn [negb orb]; [|congruence].
        destruct (truthy (strip t)); cbn [negb]; congruence.
      * destruct (isinstance e (lit "TesseractError")); [|discriminate].
        destruct (ocr w image (lit "eng")) as [t|e']; cbn [call bind];
          [|discriminate].
        destruct (truthy t); cbn [negb orb]; [|congruence].
        destruct (truthy (strip t)); cbn [negb]; congruence.
  - intros image e text Ho Hc Hi Hr.
    unfold _read_image, with_import. rewrite Himport, Ho. cbn [call bind].
    rewrite Hc, Hi, Hr. cbn [call bind].
    destruct (truthy text); [|reflexivity].
    now destruct (truthy (strip text)).
Qed.

Lemma read_image_outcome_witness :
  (exists text, _read_image Examples.broken_ocr Examples.scan_png = Ret text
                /\ nonblank text)
  \/ _read_image Examples.broken_ocr Examples.scan_png
     = Raise (ReadError (lit "No text could be extracted from image")).
Proof.
  exact (proj1 (@read_image_outcome Examples.broken_ocr Examples.scan_png
                  eq_refl)).
Defined.

(** ** Discovery: the order of paths, the cap *)

Lemma str_leb_total (a b : str) : str_leb a b = false -> str_leb b a = true.
Proof.
  revert b. induction a as [|x a IH]; intros [|y b]; cbn; try congruence.
  destruct (N.ltb_spec x y), (N.ltb_spec y x), (N.eqb_spec x y),
    (N.eqb_spec y x); cbn; try lia; auto.
Qed.

Lemma str_leb_antisym (a b : str) :
  str_leb a b = true -> str_leb b a = true -> a = b.
Proof.
  revert b. induction a as [|x a IH]; intros [|y b]; cbn; try congruence.
  destruct (N.ltb_spec x y), (N.ltb_spec y x), (N.eqb_spec x y),
    (N.eqb_spec y x); cbn; try lia; try discriminate.
  intros Hab Hba. subst. f_equal. auto.
Qed.

Lemma str_leb_trans (a b c : str) :
  str_leb a b = true -> str_leb b c = true -> str_leb a c = true.
Proof.
  revert b c. induction a as [|x a IH]; intros [|y b] [|z c]; cbn;
    try congruence.
  destruct (N.ltb_spec x y), (N.ltb_spec y z), (N.ltb_spec x z),
    (N.eqb_spec x y), (N.eqb_spec y z), (N.eqb_spec x z);
    cbn; try lia; try discriminate; eauto.
Qed.

Lemma str_eqb_neq (a b : str) : str_eqb a b = false <-> a <> b.
Proof.
  pose proof (str_eqb_eq a b) as Heq.
  destruct (str_eqb a b); split; intros; try congruence.
  - destruct Heq as [Heq _]. specialize (Heq eq_refl). contradiction.
  - intros E. apply Heq in E. discriminate.
Qed.

Lemma parts_leb_total (a b : list str) :
  parts_leb a b = false -> parts_leb b a = true.
Proof.
  revert b. induction a as [|x a IH]; intros [|y b]; cbn; try congruence.
  destruct (str_eqb x y) eqn:E.
  - apply str_eqb_eq in E as ->. rewrite str_eqb_refl. apply IH.
  - assert (E' : str_eqb y x = false).
    { apply str_eqb_neq. apply str_eqb_neq in E. congruence. }
    rewrite E'. apply str_leb_total.
Qed.

Lemma parts_leb_trans (a b c : list str) :
  parts_leb a b = true -> parts_leb b c = true -> parts_leb a c = true.
Proof.
  revert b c. induction a as [|x a IH]; intros [|y b] [|z c]; cbn;
    try congruence.
  destruct (str_eqb x y) eqn:Exy.
  - apply str_eqb_eq in Exy as ->. destruct (str_eqb y z); eauto.
  - destruct (str_eqb y z) eqn:Eyz.
    + apply str_eqb_eq in Eyz as <-. now rewrite Exy.
    + intros Hxy Hyz. destruct (str_eqb x z) eqn:Exz.
      * apply str_eqb_eq in Exz as <-.
        apply str_eqb_neq in Exy. destruct Exy.
        now apply str_leb_antisym.
      * eapply str_leb_trans; eassumption.
Qed.

Lemma path_leb_total (p q : Path) : path_leb p q = false -> path_leb q p = true.
Proof.
  unfold path_leb. destruct (anchor p), (anchor q); cbn;
    try congruence; apply parts_leb_total.
Qed.

Lemma path_leb_trans (p q r : Path) :
  path_leb p q = true -> path_leb q r = true -> path_leb p r = true.
Proof.
  unfold path_leb. destruct (anchor p), (anchor q), (anchor r); cbn;
    try congruence; apply parts_leb_trans.
Qed.

Section SortedBy.
Variable A : Type.
Variable leb : A -> A -> bool.
Hypothesis leb_total : forall x y, leb x y = false -> leb y x = true.
Hypothesis leb_trans : forall x y z, leb x y = true -> leb y z = true -> leb x z = true.

Lemma insert_by_sorted (x : A) (l : list A) :
  StronglySorted (fun a b => leb a b = true) l ->
  StronglySorted (fun a b => leb a b = true) (insert_by leb x l).
Proof.
  induction 1 as [|y l Hl IH Hy]; cbn [insert_by].
  - repeat constructor.
  - destruct (leb x y) eqn:E.
    + constructor; [now constructor|]. constructor; [exact E|].
      apply Forall_forall. intros z Hz.
      exact (leb_trans E (proj1 (Forall_forall _ _) Hy z Hz)).
    + constructor; [exact IH|].
      apply Forall_forall. intros z Hz.
      apply (Permutation_in _ (insert_by_perm leb x l)) in Hz.
      destruct Hz as [<-|Hz]; [now apply leb_total|].
      exact (proj1 (Forall_forall _ _) Hy z Hz).
Qed.

Lemma sort_by_sorted (l : list A) :
  StronglySorted (fun a b => leb a b = true) (sort_by leb l).
Proof.
  induction l as [|x l IH]; cbn; [constructor|]. now apply insert_by_sorted.
Qed.

End SortedBy.

Lemma StronglySorted_firstn {A} (R : A -> A -> Prop) (n : nat) (l : list A) :
  StronglySorted R l -> StronglySorted R (firstn n l).
Proof.
  intros Hl. revert n. induction Hl as [|x l Hl IH Hx]; intros [|n]; cbn;
    try constructor; [apply IH|].
  apply Forall_forall. intros y Hy. apply In_firstn in Hy.
  exact (proj1 (Forall_forall _ _) Hx y Hy).
Qed.

Lemma len_perm {A} (l l' : list A) : Permutation l l' -> len l = len l'.
Proof. intros Hp. unfold len. now rewrite (Permutation_length Hp). Qed.

(** X9. [discover_files] returns the entries found below the folder in
    ascending path order and records their number as [total_found], leaving
    the other counters alone.  A positive [max_docs] keeps the first
    [max_docs] of them; [max_docs = 0] keeps them all (no cap); a negative
    [max_docs] drops that many from the end of the sorted list. *)
Theorem discover_files_sorted_capped (w : World) (self : DocumentSearcher)
  (stats : Stats) :
  let found := sort_by path_leb (flat_map (rglob w (folder self)) extensions) in
  let files := fst (discover_files w self stats) in
  let stats' := snd (discover_files w self stats) in
  StronglySorted (fun p q => path_leb p q = true) files
  /\ Permutation found (flat_map (rglob w (folder self)) extensions)
  /\ stats' = mkStats (len files) (successfully_read stats) (skipped stats)
                      (matched stats) (errors stats)
  /\ (0 < max_docs self ->
      files = firstn (Z.to_nat (max_docs self)) found
      /\ len files <= max_docs self)
  /\ (max_docs self = 0 -> files = found)
  /\ (max_docs self < 0 ->
      files = firstn (List.length found - Z.to_nat (- max_docs self)) found).
Proof.
  intros found files stats'.
  assert (Hsorted : StronglySorted (fun p q => path_leb p q = true) found)
    by (apply sort_by_sorted; [apply path_leb_total|apply path_leb_trans]).
  assert (Efiles : files = if negb (max_docs self =? 0)
                              && (len found >? max_docs self)
                           then slice_to found (max_docs self) else found)
    by reflexivity.
  split; [|split; [|split; [|split; [|split]]]].
  - rewrite Efiles. destruct (_ && _); [|exact Hsorted].
    unfold slice_to. destruct (0 <=? _); now apply StronglySorted_firstn.
  - apply sort_by_perm.
  - reflexivity.
  - intros Hpos. rewrite Efiles.
    destruct (Z.eqb_spec (max_docs self) 0) as [|_]; [lia|]. cbn [negb andb].
    unfold slice_to.
    destruct (Z.gtb_spec (len found) (max_docs self)) as [Hgt|Hle].
    + destruct (Z.leb_spec 0 (max_docs self)); [|lia].
      split; [reflexivity|]. unfold len. rewrite length_firstn. lia.
    + split; [|exact Hle]. symmetry. apply firstn_all2.
      unfold len in Hle. lia.
  - intros Hzero. rewrite Efiles, Hzero. reflexivity.
  - intros Hneg. rewrite Efiles.
    destruct (Z.eqb_spec (max_docs self) 0) as [|_]; [lia|]. cbn [negb andb].
    destruct (Z.gtb_spec (len found) (max_docs self)) as [_|Hle];
      [|unfold len in Hle; lia].
    unfold slice_to. destruct (Z.leb_spec 0 (max_docs self)); [lia|].
    f_equal. unfold len. lia.
Qed.

Lemma discover_files_sorted_capped_witness :
  fst (discover_files Examples.two_files
         (mkSearcher Examples.docs (lit "x") 5 (-1)) initial_stats)
  = [Examples.budget_txt].
Proof.
  exact (proj2 (proj2 (proj2 (proj2 (proj2
           (@discover_files_sorted_capped Examples.two_files
              (mkSearcher Examples.docs (lit "x") 5 (-1)) initial_stats)))))
           eq_refl).
Defined.

(** ** Discovery and dispatch: the suffix of a discovered file *)

Lemma rfind_absent (c : char) (s : str) :
  forallb (fun x => negb (x =? c)%N) s = true -> rfind c s = None.
Proof.
  induction s as [|x s IH]; [reflexivity|]. cbn [forallb rfind].
  intros Hs. apply andb_prop in Hs as [Hx Hs]. rewrite (IH Hs).
  apply negb_true_iff in Hx. now rewrite Hx.
Qed.

Lemma rfind_last (c : char) (stem e : str) :
  forallb (fun x => negb (x =? c)%N) e = true ->
  rfind c (stem ++ c :: e) = Some (List.length stem).
Proof.
  intros He. induction stem as [|x stem IH]; cbn [app rfind List.length].
  - now rewrite (@rfind_absent _ _ He), N.eqb_refl.
  - now rewrite IH.
Qed.

Lemma extension_shape (ext : str) :
  In ext extensions ->
  exists e, ext = 46%N :: e /\ e <> []
            /\ forallb (fun x => negb (x =? 46)%N) e = true.
Proof.
  intros Hext.
  repeat (destruct Hext as [<-|Hext];
          [eexists; split; [reflexivity|split; [discriminate|reflexivity]]|]).
  destruct Hext.
Qed.

Lemma last_app_nonempty {A} (l l' : list A) (d : A) :
  l' <> [] -> last (l ++ l') d = last l' d.
Proof.
  intros Hl'. induction l as [|x l IH]; [reflexivity|].
  cbn [app]. rewrite <- IH. cbn [last].
  destruct (l ++ l') eqn:E; [|reflexivity].
  apply app_eq_nil in E as [_ E]. contradiction.
Qed.

Lemma suffix_of_extension (p : Path) (stem ext : str) :
  name p = stem ++ ext -> In ext extensions ->
  suffix p = if truthy stem then ext else [].
Proof.
  intros Hname Hext. destruct (@extension_shape _ Hext) as [e [-> [Hne He]]].
  unfold suffix. cbv zeta. rewrite Hname.
  pose proof (@rfind_last _ stem _ He) as Hr. unfold str, char in *. rewrite Hr.
  unfold len. rewrite length_app. cbn [List.length].
  destruct stem as [|c stem]; [reflexivity|]. cbn [truthy].
  destruct e as [|c' e]; [contradiction|].
  replace (_ && _) with true.
  - rewrite skipn_app, skipn_all, Nat.sub_diag. reflexivity.
  - symmetry. apply andb_true_intro. cbn [List.length].
    split; [apply Z.ltb_lt|apply Z.ltb_lt]; lia.
Qed.

Lemma discover_files_named (w : World) (self : DocumentSearcher) (stats : Stats)
  (f : Path) :
  In f (fst (discover_files w self stats)) ->
  exists stem ext, In ext extensions /\ name f = stem ++ ext.
Proof.
  intros Hin. unfold discover_files in Hin. cbn [fst] in Hin.
  assert (Hf : In f (flat_map (rglob w (folder self)) extensions)).
  { apply (Permutation_in _ (sort_by_perm path_leb _)).
    destruct (_ && _); [now apply In_slice_to in Hin|exact Hin]. }
  apply in_flat_map in Hf as [ext [Hext Hf]].
  apply in_map_iff in Hf as [rel [<- Hrel]].
  apply filter_In in Hrel as [_ Hend].
  assert (Hrel : rel <> []).
  { intros ->. revert Hend.
    repeat (destruct Hext as [<-|Hext]; [discriminate|]). destruct Hext. }
  unfold joinpath, name. cbn [parts]. rewrite (@last_app_nonempty _ _ _ _ Hrel).
  unfold endswith in Hend. apply startswith_spec in Hend as [b Hb].
  exists (rev b), ext. split; [exact Hext|].
  apply (f_equal (@rev char)) in Hb.
  rewrite rev_involutive, rev_app_distr, rev_involutive in Hb. exact Hb.
Qed.

Section Dispatch.
Context `{CaseMap}.

(** X10. Every discovered file has a reader, with one exception.  The name
    of a discovered file is [stem ++ ext] for a supported extension [ext];
    when the stem is not empty, [file.suffix] is [ext] and (lowercasing
    leaving the supported extensions as they are) [read] dispatches to the
    reader of [ext].  A file whose whole name is an extension ([.pdf], say)
    is discovered all the same, has an empty suffix, and is reported as
    "Unsupported format: ". *)
Theorem discovered_file_dispatch (w : World) (self : DocumentSearcher)
  (stats : Stats) (f : Path) :
  (forall ext, In ext extensions -> lower ext = ext) ->
  In f (fst (discover_files w self stats)) ->
  exists stem ext,
    In ext extensions /\ name f = stem ++ ext
    /\ (stem <> [] ->
        suffix f = ext
        /\ exists reader,
             dict_get readers ext = Some reader
             /\ read w f
                = reraise_as_ReadError
                    (text <- reader w f ;; Ret (truncate text))
                    (fun e => name f ++ lit ": " ++ exc_class e ++ lit ": "
                              ++ exc_str e))
    /\ (stem = [] ->
        suffix f = []
        /\ read w f = Raise (ReadError (lit "Unsupported format: "))).
Proof.
  intros Hlower Hin.
  destruct (@discover_files_named _ _ _ _ Hin) as [stem [ext [Hext Hname]]].
  exists stem, ext. split; [exact Hext|]. split; [exact Hname|].
  pose proof (@suffix_of_extension _ _ _ Hname Hext) as Hs.
  split.
  - intros Hstem. destruct stem; [contradiction|]. cbn [truthy] in Hs.
    split; [exact Hs|].
    assert (Hr : exists reader, dict_get readers ext = Some reader).
    { clear -Hext.
      repeat (destruct Hext as [<-|Hext]; [eexists; reflexivity|]).
      destruct Hext. }
    destruct Hr as [reader Hr]. exists reader. split; [exact Hr|].
    unfold read. now rewrite Hs, (Hlower _ Hext), Hr.
  - intros ->. cbn [truthy] in Hs. split; [exact Hs|].
    unfold read. rewrite Hs. reflexivity.
Qed.

End Dispatch.

Lemma ascii_case_extensions (ext : str) :
  In ext extensions -> lower (H := ascii_case) ext = ext.
Proof.
  intros Hext. repeat (destruct Hext as [<-|Hext]; [reflexivity|]).
  destruct Hext.
Qed.

Lemma discovered_file_dispatch_witness :
  In Examples.dot_pdf
     (fst (discover_files Examples.hidden (Examples.searcher "x") initial_stats))
  /\ exists stem ext,
       In ext extensions /\ name Examples.dot_pdf = stem ++ ext
       /\ (stem = [] ->
           read (H := ascii_case) Examples.hidden Examples.dot_pdf
           = Raise (ReadError (lit "Unsupported format: "))).
Proof.
  split; [now left|].
  destruct (@discovered_file_dispatch ascii_case Examples.hidden
              (Examples.searcher "x") initial_stats Examples.dot_pdf
              ascii_case_extensions (or_introl eq_refl))
    as [stem [ext [Hext [Hname [_ Hbare]]]]].
  exists stem, ext. split; [exact Hext|]. split; [exact Hname|].
  intros Hstem. exact (proj2 (Hbare Hstem)).
Defined.

(** ** The counters of a run *)

Section Counters.
Context `{CaseMap}.

Lemma files_partition (w : World) (self : DocumentSearcher) (files : list Path) :
  Forall (below self) files ->
  len files
  = len (read_documents w files) + len (error_entries w self files)
    + len (blank_files w files).
Proof.
  induction 1 as [|file files [rel [_ ->]] _ IH]; [reflexivity|].
  cbn [read_documents error_entries blank_files flat_map filter].
  fold (error_entries w self files). fold (read_documents w files).
  fold (blank_files w files).
  rewrite relative_to_joinpath.
  destruct (read_outcome w (joinpath (folder self) rel)) as [[c E]|[m E]];
    rewrite E; [destruct (truthy (strip c))|]; cbn [negb app];
    rewrite ?len_app; unfold len in *; cbn [List.length]; lia.
Qed.

Lemma search_with_stats
  (analyze : DocumentSearcher -> list Document -> result (list Analysis))
  (w : World) (self : DocumentSearcher) (stats stats' : Stats)
  (results : list Result) :
  search_with analyze w self stats = Ret (stats', results) ->
  let files := fst (discover_files w self stats) in
  (files = [] /\ results = []
   /\ stats' = mkStats 0 (successfully_read stats) (skipped stats)
                       (matched stats) (errors stats))
  \/ (files <> []
      /\ stats' = mkStats (len files)
                    (successfully_read stats + len (read_documents w files))
                    (skipped stats + len (error_entries w self files))
                    (len results)
                    (errors stats ++ error_entries w self files)).
Proof.
  intros E files. pose proof (discover_files_below w self stats) as Hbelow.
  fold files in Hbelow. unfold search_with in E.
  change (discover_files w self stats)
    with (files, mkStats (len files) (successfully_read stats) (skipped stats)
                         (matched stats) (errors stats)) in E.
  cbv beta iota in E. destruct files as [|f files'] eqn:Ef.
  - left. cbn in E. injection E as <- <-. auto.
  - right. split; [discriminate|]. rewrite <- Ef in *. 
    replace (truthy files) with true in E by now rewrite Ef.
    cbn [negb] in E. unfold final_results_of in E.
    rewrite (extraction_spec w _ [] Hbelow) in E. cbn [bind app] in E.
    destruct (analysis_stage _ _ _) as [all_analyses|e]; [|discriminate].
    cbn [bind] in E. destruct (merge _ _ _) as [final|e]; [|discriminate].
    cbn [bind] in E. injection E as <- <-. reflexivity.
Qed.

(** X11. The counters of a completed run that started from fresh counters:
    [total_found] is the number of discovered files, [skipped] the number
    of error entries, [matched] the number of results returned, and
    [successfully_read] the number of documents handed to the analysis.
    Every discovered file is counted once as read, as skipped, or as neither
    (its text was blank), so read + skipped never exceeds the total. *)
Theorem search_counters
  (analyze : DocumentSearcher -> list Document -> result (list Analysis))
  (w : World) (self : DocumentSearcher) (stats' : Stats)
  (results : list Result) :
  search_with analyze w self initial_stats = Ret (stats', results) ->
  let files := fst (discover_files w self initial_stats) in
  total_found stats' = len files
  /\ successfully_read stats' = len (read_documents w files)
  /\ errors stats' = error_entries w self files
  /\ skipped stats' = len (errors stats')
  /\ matched stats' = len results
  /\ total_found stats'
     = successfully_read stats' + skipped stats' + len (blank_files w files)
  /\ successfully_read stats' + skipped stats' <= total_found stats'.
Proof.
  intros E files.
  pose proof (files_partition w (discover_files_below w self initial_stats))
    as Hpart. fold files in Hpart.
  assert (0 <= len (blank_files w files)) by (unfold len; lia).
  destruct (search_with_stats _ _ _ _ E) as [[Hf [-> ->]]|[_ ->]];
    subst files.
  - rewrite Hf in *. cbn. repeat split; lia.
  - cbn [total_found successfully_read skipped matched errors app
         initial_stats].
    repeat split; lia.
Qed.

End Counters.

Lemma search_counters_witness :
  exists stats results,
    search (H := ascii_case) Examples.two_files (Examples.searcher "budget x")
           initial_stats
    = Ret (stats, results)
    /\ total_found stats = 2
    /\ successfully_read stats + skipped stats <= total_found stats.
Proof.
  destruct (search (H := ascii_case) Examples.two_files
              (Examples.searcher "budget x") initial_stats)
    as [[stats results]|e] eqn:E; [|vm_compute in E; discriminate].
  exists stats, results. split; [reflexivity|].
  destruct (@search_counters ascii_case analyze_with_claude
              Examples.two_files (Examples.searcher "budget x") _ _ E)
    as [Htotal [_ [_ [_ [_ [_ Hle]]]]]].
  split; [exact Htotal|exact Hle].
Defined.

(** ** Batches *)

Lemma skipn_firstn_app {A} (i j : nat) (l : list A) :
  (i <= j)%nat -> skipn i (firstn j l) ++ skipn j l = skipn i l.
Proof.
  revert i j. induction l as [|x l IH]; intros i j Hij.
  - now rewrite firstn_nil, !skipn_nil.
  - destruct i as [|i].
    + cbn [skipn]. apply firstn_skipn.
    + destruct j as [|j]; [lia|]. cbn [firstn skipn]. apply IH. lia.
Qed.

Lemma range_up_done (fuel : nat) (i stop step : Z) :
  stop <= i -> range_up fuel i stop step = [].
Proof.
  intros Hi. destruct fuel; [reflexivity|]. cbn [range_up].
  destruct (Z.ltb_spec i stop); [lia|reflexivity].
Qed.

Lemma batches_from {A} (l : list A) (b : Z) (fuel : nat) (i : Z) :
  0 < b -> 0 <= i <= len l + b - 1 ->
  (Z.to_nat (len l - i) <= fuel)%nat ->
  let batches :=
    List.map (fun i => slice l i (i + b)) (range_up fuel i (len l) b) in
  List.concat batches = skipn (Z.to_nat i) l
  /\ Forall (fun batch => 0 < len batch <= b) batches
  /\ Forall (fun batch => len batch = b) (removelast batches)
  /\ len batches = (len l - i + b - 1) / b.
Proof.
  intros Hb. revert i. induction fuel as [|fuel IH]; intros i Hi Hfuel.
  - cbn. rewrite skipn_all2 by (unfold len in *; lia).
    repeat split; try constructor.
    symmetry. apply Z.div_small. unfold len in *. lia.
  - cbn [range_up]. destruct (Z.ltb_spec i (len l)) as [Hlt|Hge].
    + destruct (IH (i + b)) as [Hcat [Hsize [Hfull Hcount]]];
        [lia|lia|].
      cbn [List.map List.concat].
      assert (Efirst : slice l i (i + b)
                       = skipn (Z.to_nat i) (firstn (Z.to_nat (i + b)) l)).
      { unfold slice, slice_to. destruct (Z.leb_spec 0 (i + b)); [reflexivity|lia]. }
      assert (Hlen : len (slice l i (i + b)) = Z.min (i + b) (len l) - i).
      { rewrite Efirst. unfold len in *. rewrite length_skipn, length_firstn. lia. }
      split; [|split; [|split]].
      * rewrite Hcat, Efirst. apply skipn_firstn_app. lia.
      * constructor; [lia|exact Hsize].
      * destruct (Z.ltb_spec (i + b) (len l)) as [Hmore|Hlast].
        -- destruct (List.map _ (range_up fuel (i + b) (len l) b)) as [|y ys] eqn:Er.
           ++ constructor.
           ++ cbn [removelast]. constructor; [lia|exact Hfull].
        -- rewrite range_up_done by exact Hlast. constructor.
      * unfold len at 1. cbn [List.length]. fold (len (List.map (fun i0 => slice l i0 (i0 + b)) (range_up fuel (i + b) (len l) b))).
        rewrite Nat2Z.inj_succ. unfold len in Hcount at 1. rewrite Hcount.
        replace (len l - i + b - 1) with (len l - (i + b) + b - 1 + 1 * b) by lia.
        rewrite Z.div_add by lia. lia.
    + cbn. rewrite skipn_all2 by (unfold len in *; lia).
      repeat split; try constructor.
      symmetry. apply Z.div_small. lia.
Qed.

Lemma analysis_stage_in_batches
  (analyze : list Document -> result (list Analysis))
  (self : DocumentSearcher) (documents : list Document) :
  0 < batch_size self ->
  exists batches,
    analysis_stage analyze self documents = analyze_batches analyze batches []
    /\ List.concat batches = documents.
Proof.
  intros Hb.
  destruct (@batches_from _ documents (batch_size self)
              (Z.to_nat (len documents - 0)) 0 Hb)
    as [Hcat _]; [unfold len; lia|lia|].
  destruct documents as [|d documents'] eqn:Ed.
  - exists []. split; reflexivity.
  - rewrite <- Ed in *. eexists. split; [|exact Hcat].
    unfold analysis_stage. rewrite Ed at 1. cbn [truthy].
    unfold floordiv, range.
    destruct (Z.eqb_spec (batch_size self) 0) as [|_]; [lia|].
    destruct (Z.ltb_spec 0 (batch_size self)) as [_|]; [|lia].
    cbn [bind]. reflexivity.
Qed.

(** X12. With a positive [batch_size], the documents are handed to the
    analyst in consecutive batches that, put end to end, are the list of
    documents: every batch but the last holds exactly [batch_size]
    documents, the last between 1 and [batch_size], and there are
    [(len(documents) + batch_size - 1) // batch_size] of them, the number
    the progress line announces. *)
Theorem analysis_stage_batches
  (analyze : list Document -> result (list Analysis))
  (self : DocumentSearcher) (documents : list Document) :
  0 < batch_size self ->
  exists batches,
    analysis_stage analyze self documents = analyze_batches analyze batches []
    /\ List.concat batches = documents
    /\ Forall (fun batch => 0 < len batch <= batch_size self) batches
    /\ Forall (fun batch => len batch = batch_size self) (removelast batches)
    /\ len batches = (len documents + batch_size self - 1) / batch_size self.
Proof.
  intros Hb.
  destruct (@batches_from _ documents (batch_size self)
              (Z.to_nat (len documents - 0)) 0 Hb)
    as [Hcat [Hsize [Hfull Hcount]]];
    [unfold len; lia|lia|].
  destruct documents as [|d documents'] eqn:Ed.
  - exists []. cbn. repeat split; try constructor.
    symmetry. apply Z.div_small. lia.
  - rewrite <- Ed in *. eexists. split; [|split; [exact Hcat|split; [exact Hsize|split; [exact Hfull|]]]].
    + unfold analysis_stage. rewrite Ed at 1. cbn [truthy].
      unfold floordiv, range.
      destruct (Z.eqb_spec (batch_size self) 0) as [|_]; [lia|].
      destruct (Z.ltb_spec 0 (batch_size self)) as [_|]; [|lia].
      cbn [bind]. reflexivity.
    + rewrite Hcount. f_equal. lia.
Qed.

Lemma analysis_stage_batches_witness :
  exists batches,
    analysis_stage (fun _ => Ret [])
      (mkSearcher Examples.docs (lit "x") 2 50)
      [mkDocument Examples.budget_txt (lit "a");
       mkDocument Examples.notes_x (lit "b");
       mkDocument Examples.scan_png (lit "c")]
    = analyze_batches (fun _ => Ret []) batches []
    /\ len batches = 2.
Proof.
  destruct (@analysis_stage_batches (fun _ => Ret [])
              (mkSearcher Examples.docs (lit "x") 2 50)
              [mkDocument Examples.budget_txt (lit "a");
               mkDocument Examples.notes_x (lit "b");
               mkDocument Examples.scan_png (lit "c")]
              eq_refl)
    as [batches [E [_ [_ [_ Hcount]]]]].
  exists batches. split; [exact E|exact Hcount].
Defined.

Lemma analysis_stage_negative
  (analyze : list Document -> result (list Analysis))
  (self : DocumentSearcher) (documents : list Document) :
  batch_size self < 0 -> analysis_stage analyze self documents = Ret [].
Proof.
  intros Hb. unfold analysis_stage, floordiv, range.
  destruct (truthy documents); [|reflexivity].
  destruct (Z.eqb_spec (batch_size self) 0) as [|_]; [lia|].
  destruct (Z.ltb_spec 0 (batch_size self)) as [|_]; [lia|].
  cbn [bind]. replace (Z.to_nat (0 - len documents)) with O
    by (unfold len; lia).
  reflexivity.
Qed.

Section BatchSize.
Context `{CaseMap}.

(** X13. [--batch-size 0] is not rejected: as soon as one document has
    been read with a text that is not blank, the run stops at the batch
    count with a [ZeroDivisionError] that nothing catches, so [main] ends in
    a traceback and no report is written. *)
Theorem zero_batch_size_is_uncaught
  (analyze : DocumentSearcher -> list Document -> result (list Analysis))
  (w : World) (args : Args) :
  let searcher := mkSearcher (arg_folder args) (arg_query args)
                             (arg_batch_size args) (arg_max_docs args) in
  path_exists w (arg_folder args) = true ->
  path_is_dir w (arg_folder args) = true ->
  arg_batch_size args = 0 ->
  read_documents w (fst (discover_files w searcher initial_stats)) <> [] ->
  search_with analyze w searcher initial_stats
  = Raise (builtin_error "ZeroDivisionError" "integer division or modulo by zero")
  /\ main analyze w (Parsed args)
     = Uncaught (builtin_error "ZeroDivisionError"
                               "integer division or modulo by zero").
Proof.
  intros searcher Hex Hdir Hzero Hdocs.
  assert (E : search_with analyze w searcher initial_stats
              = Raise (builtin_error "ZeroDivisionError"
                                     "integer division or modulo by zero")).
  { pose proof (discover_files_below w searcher initial_stats) as Hbelow.
    unfold search_with.
    set (files := fst (discover_files w searcher initial_stats)) in *.
    change (discover_files w searcher initial_stats)
      with (files, mkStats (len files) 0 0 0 []).
    cbv beta iota.
    destruct files as [|f files'] eqn:Ef; [now destruct Hdocs|].
    rewrite <- Ef in *. replace (truthy files) with true by now rewrite Ef.
    cbn [negb]. unfold final_results_of.
    rewrite (extraction_spec w _ [] Hbelow). cbn [bind app].
    unfold analysis_stage.
    destruct (read_documents w files) as [|d ds]; [now destruct Hdocs|].
    cbn [truthy]. unfold floordiv.
    change (batch_size searcher) with (arg_batch_size args).
    rewrite Hzero. reflexivity. }
  split; [exact E|].
  unfold main. rewrite Hex, Hdir. cbn [negb]. fold searcher. now rewrite E.
Qed.

(** X14. A negative [--batch-size] is not rejected either: the list of
    batches is empty, the analyst is never called, and the run is the one
    an analyst without any answer would give: path matches only. *)
Theorem negative_batch_size_skips_analysis
  (analyze : DocumentSearcher -> list Document -> result (list Analysis))
  (w : World) (self : DocumentSearcher) (stats : Stats) :
  batch_size self < 0 ->
  (forall documents, analysis_stage (analyze self) self documents = Ret [])
  /\ search_with analyze w self stats
     = search_with (fun _ _ => Ret []) w self stats.
Proof.
  intros Hb. split; [intros documents; now apply analysis_stage_negative|].
  unfold search_with. destruct (discover_files w self stats) as [files stats1].
  destruct (negb (truthy files)); [reflexivity|].
  unfold final_results_of.
  destruct (extraction w self files stats1 []) as [[stats2 documents]|e];
    [|reflexivity].
  cbn [bind]. now rewrite !analysis_stage_negative.
Qed.

End BatchSize.

Lemma zero_batch_size_is_uncaught_witness :
  main (H := ascii_case) analyze_with_claude Examples.two_files
       (Parsed (mkArgs Examples.docs (lit "budget")
                       (mkPath false [lit "search_results.md"]) 0 50 false))
  = Uncaught (builtin_error "ZeroDivisionError"
                            "integer division or modulo by zero").
Proof.
  apply (@zero_batch_size_is_uncaught ascii_case analyze_with_claude
           Examples.two_files
           (mkArgs Examples.docs (lit "budget")
                   (mkPath false [lit "search_results.md"]) 0 50 false));
    try reflexivity.
  vm_compute. discriminate.
Defined.

Lemma negative_batch_size_skips_analysis_witness :
  analysis_stage
    (fun _ => Ret [mkAnalysis (Some (lit "budget.txt")) (Some 90) None None])
    (mkSearcher Examples.docs (lit "budget") (-1) 50)
    [mkDocument Examples.budget_txt (lit "hello world")]
  = Ret [].
Proof.
  exact (proj1 (@negative_batch_size_skips_analysis ascii_case
                  (fun _ _ => Ret [mkAnalysis (Some (lit "budget.txt"))
                                              (Some 90) None None])
                  Examples.two_files
                  (mkSearcher Examples.docs (lit "budget") (-1) 50)
                  initial_stats eq_refl)
               [mkDocument Examples.budget_txt (lit "hello world")]).
Defined.

(** ** Dicts: lookup after insertion *)

Lemma dict_get_set {V} (d : list (str * V)) (key : str) (v : V) (key' : str) :
  dict_get (dict_set d key v) key'
  = if str_eqb key key' then Some v else dict_get d key'.
Proof.
  induction d as [|[k v'] d IH]; cbn [dict_set dict_get]; [reflexivity|].
  destruct (str_eqb k key) eqn:Ek; cbn [dict_get].
  - apply str_eqb_eq in Ek as ->. now destruct (str_eqb key key').
  - rewrite IH. destruct (str_eqb k key') eqn:Ek'; [|reflexivity].
    apply str_eqb_eq in Ek' as ->.
    destruct (str_eqb key key') eqn:E; [|reflexivity].
    apply str_eqb_eq in E as ->. rewrite str_eqb_refl in Ek. discriminate.
Qed.

Lemma dict_get_In {V} (d : list (str * V)) (key : str) (v : V) :
  dict_get d key = Some v -> In (key, v) d.
Proof.
  induction d as [|[k v'] d IH]; cbn [dict_get]; [discriminate|].
  destruct (str_eqb k key) eqn:Ek.
  - apply str_eqb_eq in Ek as ->. intros E. injection E as ->. now left.
  - intros E. right. auto.
Qed.

(** X15. The dict comprehension that indexes the analyses by file keeps,
    for each key, the last analysis the analyst returned for it: looking a
    key up gives the first match from the end of [all_analyses] (an
    analysis without a ['file'] is filed under the empty string). *)
Theorem last_analysis_wins (all_analyses : list Analysis) (key : str) :
  dict_get (content_analyzed all_analyses) key
  = find (fun a => str_eqb (get (a_file a) []) key) (rev all_analyses).
Proof.
  unfold content_analyzed.
  induction all_analyses as [|a l IH] using rev_ind; [reflexivity|].
  rewrite fold_left_app, rev_app_distr. cbn [fold_left rev app find].
  now rewrite dict_get_set, IH.
Qed.

(** ** The script on its own: a search by path *)

Lemma map_result_total {A B} (f : A -> result B) (l : list A) (g : A -> B) :
  (forall x, In x l -> f x = Ret (g x)) -> map_result f l = Ret (List.map g l).
Proof.
  induction l as [|x l IH]; intros Hf; [reflexivity|].
  cbn [map_result List.map]. rewrite (Hf x (or_introl eq_refl)). cbn [bind].
  rewrite IH; [reflexivity|]. intros y Hy. apply Hf. now right.
Qed.

Lemma analyze_batches_nothing
  (analyze : list Document -> result (list Analysis))
  (batches : list (list Document)) (acc : list Analysis) :
  (forall batch, In batch batches -> analyze batch = Ret []) ->
  analyze_batches analyze batches acc = Ret acc.
Proof.
  revert acc. induction batches as [|batch rest IH]; intros acc Hb;
    [reflexivity|].
  cbn [analyze_batches]. rewrite (Hb batch (or_introl eq_refl)). cbn [bind].
  rewrite app_nil_r. apply IH. intros b Hin. apply Hb. now right.
Qed.

Lemma path_matching_files (self : DocumentSearcher) (P : Path -> Prop)
  `{CaseMap} (files : list Path) (d : list (str * PathInfo)) :
  Forall (fun item => P (pi_file (snd item))) d ->
  Forall P files ->
  Forall (fun item => P (pi_file (snd item))) (path_matching self files d).
Proof.
  intros Hd Hfiles. revert d Hd.
  induction Hfiles as [|file files Hfile _ IH]; intros d Hd; [exact Hd|].
  cbn [path_matching].
  destruct (_query_matches_path self file) as [[is_match terms] score].
  apply IH. destruct is_match; [|exact Hd].
  apply Forall_forall. intros [k info] Hin.
  apply dict_set_In in Hin as [Hin|[-> ->]].
  - now apply (proj1 (Forall_forall _ _) Hd (k, info)).
  - exact Hfile.
Qed.

Lemma dict_mem_set {V} (d : list (str * V)) (key : str) (v : V) (key' : str) :
  dict_mem d key' = true -> dict_mem (dict_set d key v) key' = true.
Proof.
  unfold dict_mem. rewrite dict_get_set. now destruct (str_eqb key key').
Qed.

Lemma path_matching_mem `{CaseMap} (self : DocumentSearcher) (files : list Path)
  (d : list (str * PathInfo)) (key : str) :
  dict_mem d key = true
  \/ (exists f terms score,
        In f files /\ path_str f = key
        /\ _query_matches_path self f = (true, terms, score)) ->
  dict_mem (path_matching self files d) key = true.
Proof.
  revert d. induction files as [|file files IH]; intros d Hk.
  - destruct Hk as [Hk|[f [_ [_ [[] _]]]]]. exact Hk.
  - cbn [path_matching].
    destruct (_query_matches_path self file) as [[is_match terms] score] eqn:E.
    apply IH. destruct Hk as [Hk|[f [t [s [[<-|Hin] [Hkey Hm]]]]]].
    + left. destruct is_match; [now apply dict_mem_set|exact Hk].
    + left. rewrite E in Hm. injection Hm as -> _ _.
      unfold dict_mem. rewrite dict_get_set, Hkey, str_eqb_refl. reflexivity.
    + right. eauto 8.
Qed.

Lemma map_result_exists {A B} (f : A -> result B) (l : list A) :
  (forall x, In x l -> exists y, f x = Ret y) ->
  exists ys, map_result f l = Ret ys.
Proof.
  induction l as [|x l IH]; intros Hf; [now exists []|].
  destruct (Hf x (or_introl eq_refl)) as [y Hy].
  destruct IH as [ys Hys]; [intros z Hz; apply Hf; now right|].
  exists (y :: ys). cbn [map_result]. now rewrite Hy, Hys.
Qed.

Section Standalone.
Context `{CaseMap}.

Lemma analyze_with_claude_nothing (self : DocumentSearcher)
  (batch : list Document) :
  (forall d, In d batch -> below self (doc_file d)) ->
  analyze_with_claude self batch = Ret [].
Proof.
  intros Hbatch. unfold analyze_with_claude.
  match goal with
  | |- bind (map_result ?f batch) _ = _ =>
      destruct (@map_result_exists _ _ f batch) as [docs_info ->];
        [|reflexivity]
  end.
  intros d Hd. destruct (Hbatch d Hd) as [rel [_ ->]].
  rewrite relative_to_joinpath. cbn [bind]. eauto.
Qed.

Lemma analysis_stage_placeholder (self : DocumentSearcher)
  (documents : list Document) :
  batch_size self <> 0 ->
  (forall d, In d documents -> below self (doc_file d)) ->
  analysis_stage (analyze_with_claude self) self documents = Ret [].
Proof.
  intros Hb Hdocs.
  destruct (Z_lt_le_dec 0 (batch_size self)) as [Hpos|Hneg].
  - destruct (@analysis_stage_in_batches (analyze_with_claude self) self
                documents Hpos) as [batches [-> Hcat]].
    apply analyze_batches_nothing. intros batch Hin.
    apply analyze_with_claude_nothing. intros d Hd. apply Hdocs.
    rewrite <- Hcat. apply in_concat. eauto.
  - apply analysis_stage_negative. lia.
Qed.

Lemma merge_path_only (self : DocumentSearcher) (item : str * PathInfo)
  (r : Result) :
  merge_path_match self (content_analyzed []) item = Ret r ->
  file r = Some (FPath (pi_file (snd item)))
  /\ relevance r = Some (pi_path_relevance (snd item))
  /\ match_sources r = Some [lit "path"]
  /\ matched_terms r = Some (pi_matched_terms (snd item))
  /\ content_relevance r = None.
Proof.
  destruct item as [k info]. cbn [merge_path_match content_analyzed fold_left
                                  dict_get snd].
  destruct (relative_to (pi_file info) (folder self)) as [rel|e];
    [|discriminate].
  cbn [bind]. intros E. injection E as <-. cbn. auto.
Qed.

(** X16. Run on its own, the script is a search by file and folder names.
    Its analyst returns no analysis, so, for any [batch_size] other than 0,
    [search] returns, and its results are the path matches whose score
    reaches the threshold of 30: every result is a discovered file with
    the score and terms [_query_matches_path] gave it, marked as a match by
    path only; and every discovered file with such a score is among the
    results.  A document that matches by content alone is never reported. *)
Theorem standalone_search_is_path_search (w : World) (self : DocumentSearcher)
  (stats : Stats) :
  batch_size self <> 0 ->
  let files := fst (discover_files w self stats) in
  exists stats' results,
    search w self stats = Ret (stats', results)
    /\ (forall r, In r results ->
          exists f terms score,
            In f files
            /\ _query_matches_path self f = (true, terms, score)
            /\ RELEVANCE_THRESHOLD <= score
            /\ file r = Some (FPath f)
            /\ relevance r = Some score
            /\ match_sources r = Some [lit "path"]
            /\ matched_terms r = Some terms
            /\ content_relevance r = None)
    /\ (forall f terms score,
          In f files ->
          (forall f', In f' files -> path_str f' = path_str f -> f' = f) ->
          _query_matches_path self f = (true, terms, score) ->
          RELEVANCE_THRESHOLD <= score ->
          exists r, In r results /\ file r = Some (FPath f)
                    /\ relevance r = Some score).
Proof.
  intros Hb files.
  pose proof (discover_files_below w self stats) as Hbelow. fold files in Hbelow.
  unfold search, search_with.
  change (discover_files w self stats)
    with (files, mkStats (len files) (successfully_read stats) (skipped stats)
                         (matched stats) (errors stats)).
  cbv beta iota. destruct files as [|f0 files'] eqn:Ef.
  - do 2 eexists. split; [reflexivity|]. split; [intros r []|].
    intros f terms score [].
  - rewrite <- Ef in *. replace (truthy files) with true by now rewrite Ef.
    clear Ef f0 files'. cbn [negb]. unfold final_results_of.
    rewrite (extraction_spec w _ [] Hbelow). cbn [bind app].
    rewrite analysis_stage_placeholder; [|exact Hb|].
    2:{ intros d Hd. apply read_documents_In in Hd as [Hd _].
        exact (proj1 (Forall_forall _ _) Hbelow _ Hd). }
    cbn [bind].
    set (pm := path_matching self files []).
    assert (Hentries : Forall (path_entry self) pm)
      by (apply path_matching_entries; constructor).
    assert (Hfiles : Forall (fun item => In (pi_file (snd item)) files) pm).
    { apply (@path_matching_files self (fun f => In f files) _ files []);
        [constructor|].
      apply Forall_forall. auto. }
    destruct (merge self pm []) as [final|e] eqn:Em.
    + cbn [bind]. do 2 eexists. split; [reflexivity|].
      destruct (merge_unfold _ _ _ Em) as [from_paths [Hall Efinal]].
      cbn [filter List.map] in Efinal. rewrite app_nil_r in Efinal.
      subst final.
      split.
      * intros r Hr. apply rank_spec in Hr as [Hr Hrel].
        destruct (Forall2_In_r _ Hall Hr) as [item [Hitem Hmerge]].
        apply merge_path_only in Hmerge
          as [Hfile [Hscore [Hsrc [Hterms Hcontent]]]].
        destruct (proj1 (Forall_forall _ _) Hentries _ Hitem) as [_ Hmatch].
        exists (pi_file (snd item)), (pi_matched_terms (snd item)),
          (pi_path_relevance (snd item)).
        repeat split; auto.
        -- exact (proj1 (Forall_forall _ _) Hfiles _ Hitem).
        -- unfold relevance_of in Hrel. now rewrite Hscore in Hrel.
      * intros f terms score Hf Huniq Hmatch Hscore.
        assert (Hmem : dict_mem pm (path_str f) = true).
        { apply path_matching_mem. right. eauto 8. }
        unfold dict_mem in Hmem.
        destruct (dict_get pm (path_str f)) as [info|] eqn:Eget;
          [|discriminate].
        apply dict_get_In in Eget.
        destruct (proj1 (Forall_forall _ _) Hentries _ Eget) as [Hkey Hm].
        cbn [fst snd] in Hkey, Hm.
        pose proof (proj1 (Forall_forall _ _) Hfiles _ Eget) as Hin.
        cbn [snd] in Hin.
        assert (Einfo : pi_file info = f) by (apply Huniq; auto).
        rewrite Einfo, Hmatch in Hm. injection Hm as Et Es.
        destruct (Forall2_In_l _ Hall Eget) as [r [Hr Hmerge]].
        apply merge_path_only in Hmerge as [Hfile [Hrel _]].
        cbn [snd] in Hfile, Hrel. rewrite Einfo in Hfile. rewrite <- Es in Hrel.
        exists r. split; [|auto].
        apply rank_spec. split; [exact Hr|].
        unfold relevance_of. now rewrite Hrel.
    + exfalso. unfold merge in Em.
      match type of Em with
      | bind (map_result ?g pm) _ = _ =>
          destruct (@map_result_exists _ _ g pm) as [ys Hys]
      end.
      * intros [k info] Hitem.
        pose proof (proj1 (Forall_forall _ _) Hfiles _ Hitem) as Hin.
        cbn [snd] in Hin.
        destruct (proj1 (Forall_forall _ _) Hbelow _ Hin) as [rel [_ Erel]].
        cbn [merge_path_match content_analyzed fold_left dict_get].
        rewrite Erel, relative_to_joinpath. cbn [bind]. eauto.
      * rewrite Hys in Em. discriminate.
Qed.

End Standalone.

Lemma standalone_search_is_path_search_witness :
  exists stats results,
    search (H := ascii_case) Examples.two_files (Examples.searcher "budget x")
           initial_stats
    = Ret (stats, results)
    /\ forall r, In r results -> match_sources r = Some [lit "path"].
Proof.
  destruct (@standalone_search_is_path_search ascii_case Examples.two_files
              (Examples.searcher "budget x") initial_stats
              ltac:(vm_compute; discriminate))
    as [stats [results [E [Hfwd _]]]].
  exists stats, results. split; [exact E|]. intros r Hr.
  destruct (Hfwd r Hr) as [f [t [s [_ [_ [_ [_ [_ [Hsrc _]]]]]]]]].
  exact Hsrc.
Defined.

(** ** The merge: which string files an analysis under a path match *)

Lemma relative_path_str_differs (root : Path) (rel : list str) :
  root <> mkPath false [] -> rel <> [] ->
  path_str (mkPath false rel) <> path_str (joinpath root rel).
Proof.
  intros Hroot Hrel E. apply (f_equal (@List.length char)) in E.
  assert (Erel : path_str (mkPath false rel) = join sep rel).
  { unfold path_str. cbn [anchor parts]. now destruct rel. }
  rewrite Erel in E.
  destruct (parts root) as [|c l] eqn:Ep.
  - destruct root as [a p]. cbn [parts] in Ep. subst p.
    destruct a; [|now destruct Hroot].
    unfold path_str, joinpath in E. cbn [anchor parts app] in E.
    rewrite length_app in E. cbn in E. lia.
  - rewrite path_str_joinpath in E by (rewrite ?Ep; auto; discriminate).
    rewrite !length_app in E. cbn in E. lia.
Qed.

Lemma content_analyzed_absent (all_analyses : list Analysis) (key : str) :
  (forall a, In a all_analyses -> get (a_file a) [] <> key) ->
  dict_get (content_analyzed all_analyses) key = None.
Proof.
  unfold content_analyzed.
  induction all_analyses as [|a l IH] using rev_ind; intros Hkey;
    [reflexivity|].
  rewrite fold_left_app. cbn [fold_left]. rewrite dict_get_set.
  destruct (str_eqb (get (a_file a) []) key) eqn:E.
  - apply str_eqb_eq in E. destruct (Hkey a); [|exact E].
    apply in_or_app. right. now left.
  - apply IH. intros a' Ha'. apply Hkey. apply in_or_app. now left.
Qed.

Section MergeKeys.
Context `{CaseMap}.

(** X17. The merge files an analysis under a path match by one string
    only: [str(file)], the path with the folder in front.  For a folder
    other than [.], that is not the path relative to the folder (the form
    in which the prompt names the file).  So when the analysis of a
    path-matched file comes back under its relative path, and none under
    its full path, the two are not combined: the file gets a result by path
    alone, with the path score, and the analysis is kept beside it as a
    result by content alone. *)
Theorem analysis_under_relative_path_not_combined (self : DocumentSearcher)
  (files : list Path) (analyses : list Analysis) (final : list Result)
  (rel : list str) (a : Analysis) (terms : list str) (score : Z) :
  let f := joinpath (folder self) rel in
  let path_match_results := path_matching self files [] in
  folder self <> mkPath false [] -> rel <> [] ->
  merge self path_match_results analyses = Ret final ->
  dict_get path_match_results (path_str f) = Some (mkPathInfo f score terms) ->
  In a analyses ->
  a_file a = Some (path_str (mkPath false rel)) ->
  (forall a', In a' analyses -> get (a_file a') [] <> path_str f) ->
  dict_mem path_match_results (path_str (mkPath false rel)) = false ->
  path_str (mkPath false rel) <> path_str f
  /\ In (content_only a) final
  /\ exists r,
       In r final /\ file r = Some (FPath f) /\ relevance r = Some score
       /\ match_sources r = Some [lit "path"].
Proof.
  intros f pm Hfolder Hrel Em Hget Ha Hfile Hnone Hfree.
  split; [now apply relative_path_str_differs|].
  destruct (merge_unfold _ _ _ Em) as [from_paths [Hall ->]].
  split.
  - apply in_or_app. right. apply in_map, filter_In. split; [exact Ha|].
    rewrite Hfile. cbn [get]. now rewrite Hfree.
  - apply dict_get_In in Hget.
    destruct (Forall2_In_l _ Hall Hget) as [r [Hr Hmerge]].
    exists r. split; [apply in_or_app; now left|].
    cbn [merge_path_match] in Hmerge.
    rewrite (content_analyzed_absent _ Hnone) in Hmerge.
    cbn [pi_file] in Hmerge. unfold f in Hmerge.
    rewrite relative_to_joinpath in Hmerge. cbn [bind] in Hmerge.
    injection Hmerge as <-. cbn. auto.
Qed.

End MergeKeys.

Lemma analysis_under_relative_path_not_combined_witness :
  exists final,
    merge (Examples.searcher "budget")
          (path_matching (H := ascii_case) (Examples.searcher "budget")
                         [Examples.budget_txt] [])
          [mkAnalysis (Some (lit "budget.txt")) (Some 90) None None]
    = Ret final
    /\ List.map relevance final = [Some 40; Some 90].
Proof.
  eexists. split; [reflexivity|].
  destruct (@analysis_under_relative_path_not_combined ascii_case
              (Examples.searcher "budget") [Examples.budget_txt]
              [mkAnalysis (Some (lit "budget.txt")) (Some 90) None None]
              _ [lit "budget.txt"]
              (mkAnalysis (Some (lit "budget.txt")) (Some 90) None None)
              [lit "budget"] 40
              ltac:(discriminate) ltac:(discriminate) eq_refl eq_refl
              (or_introl eq_refl) eq_refl
              ltac:(intros a' [<-|[]]; vm_compute; discriminate) eq_refl)
    as [_ _].
  reflexivity.
Defined.

(** ** The report *)

Lemma results_lines_nth (results : list Result) (k : nat) (r : Result) (i : Z)
  (line : str) :
  nth_error results k = Some r ->
  In line (result_lines (i + Z.of_nat k) r) ->
  In line (results_lines i results).
Proof.
  revert k i. induction results as [|r0 results IH]; intros k i.
  - now destruct k.
  - destruct k as [|k]; cbn [nth_error results_lines].
    + intros E. injection E as ->. rewrite Z.add_0_r. intros Hin.
      apply in_or_app. now left.
    + intros E Hin. apply in_or_app. right. apply (IH k); [exact E|].
      now replace (i + 1 + Z.of_nat k) with (i + Z.of_nat (S k)) by lia.
Qed.

Section Report.
Context `{CaseMap}.

(** X18. In the report the results are numbered from 1 in the order
    [search] returned them: result number [k + 1] has the heading
    "### k+1. name", with the magnifying-glass badge when it matched by
    path, and its line "**Relevance:** n/100", below the section title
    "## Matched Documents".  The file enters these lines by its name alone:
    two results that differ only in the folder of their file are printed
    alike. *)
Theorem report_numbers_results (w : World) (self : DocumentSearcher)
  (stats : Stats) (results : list Result) (k : nat) (r : Result) :
  nth_error results k = Some r ->
  let file_name := file_ref_name (get (file r) (FStr (lit "Unknown"))) in
  let by_path := list_mem (lit "path") (get (match_sources r) [lit "content"]) in
  In (lit "## Matched Documents" ++ nl) (report_lines w self stats results)
  /\ In (lit "### " ++ str_of_int (Z.of_nat k + 1) ++ lit ". " ++ file_name
         ++ (if by_path then [32; 128269]%N else []))
        (report_lines w self stats results)
  /\ In (lit "**Relevance:** " ++ str_of_int (get (relevance r) 0) ++ lit "/100")
        (report_lines w self stats results)
  /\ forall (i : Z) (f' : file_ref),
       file_ref_name f' = file_name ->
       result_lines i (mkResult (Some f') (relevance r) (summary r)
                                (excerpts r) (match_sources r)
                                (matched_terms r) (path_relevance r)
                                (content_relevance r))
       = result_lines i r.
Proof.
  intros Hk file_name by_path.
  assert (Hsection : forall line,
             In line (matched_section results) ->
             In line (report_lines w self stats results)).
  { intros line Hin. unfold report_lines. apply in_or_app. right.
    apply in_or_app. now left. }
  assert (Hne : truthy results = true) by (destruct results; [now destruct k|reflexivity]).
  assert (Hresult : forall line,
             In line (result_lines (Z.of_nat k + 1) r) ->
             In line (report_lines w self stats results)).
  { intros line Hin. apply Hsection. unfold matched_section. rewrite Hne.
    right. apply (@results_lines_nth results k r 1 line Hk).
    now rewrite Z.add_comm. }
  split; [|split; [|split]].
  - apply Hsection. unfold matched_section. rewrite Hne. now left.
  - apply Hresult. unfold result_lines. cbv zeta. now left.
  - apply Hresult. unfold result_lines. cbv zeta. right. now left.
  - intros i f' Hname. unfold result_lines. cbn [file relevance summary excerpts
      match_sources matched_terms path_relevance content_relevance get].
    fold file_name. now rewrite Hname.
Qed.

End Report.

Lemma report_numbers_results_witness :
  In (lit "### 1. x.txt" ++ [32; 128269]%N)
     (report_lines Examples.two_files (Examples.searcher "notes s/n")
                   initial_stats Examples.merged_notes).
Proof.
  exact (proj1 (proj2 (@report_numbers_results Examples.two_files
                         (Examples.searcher "notes s/n") initial_stats
                         Examples.merged_notes 0%nat _ eq_refl))).
Defined.
